(** * COVID-19-DATA: the data pipeline of the dashboard, embedded in Rocq

    The development follows the JavaScript sources:
    - [utils.js]  ([calculatePer1000], [getColumnOptions], [sortData],
                   [PageButton]);
    - [App.js]    ([fetchData] with its three aggregations and its two date
                   bounds, [getUniqueCountries], the filter with its three
                   clauses, [resetFilters], [totalPages] and the table-body
                   slice, [renderPageNumbers], [aggregateDataByDate],
                   [handleColumnSort]);
    - [Chart.js]  (the two series of the chart).

    JavaScript numbers are IEEE-754 binary64 values.  They are modelled by
    the standard library's [spec_float] at precision 53 and maximal exponent
    1024, whose operations are executable and round to nearest-even exactly
    like the engine's.  Strings are [string]s, arrays are lists, and a thrown
    exception is an explicit [Throw] outcome.  An object used as a
    dictionary is a finite map of its own properties: its keys (country
    names, date strings) are taken not to be names that [Object.prototype]
    defines. *)

From Stdlib Require Import ZArith List String Ascii Lia Bool Sorted Permutation.
From Stdlib Require Import SpecFloat DecimalString DecimalN.
From stdpp Require Import gmap strings list fin_maps.

Open Scope Z_scope.

(** ** Outcomes of a JavaScript evaluation *)

Inductive JsError := TypeError.

Inductive Completion (A : Type) :=
| Normal (a : A)
| Throw (e : JsError).
Arguments Normal {A} a.
Arguments Throw {A} e.

#[global] Instance Completion_ret : MRet Completion := fun _ a => Normal a.
#[global] Instance Completion_bind : MBind Completion := fun _ _ f m =>
  match m with
  | Normal a => f a
  | Throw e => Throw e
  end.

#[global] Instance Completion_fmap : FMap Completion := fun _ _ f m =>
  match m with
  | Normal a => Normal (f a)
  | Throw e => Throw e
  end.

(** ** Numbers: binary64 *)

Module Num.

Definition float64 := spec_float.

Definition prec : Z := 53.
Definition emax : Z := 1024.

Definition add : float64 -> float64 -> float64 := SFadd prec emax.
Definition sub : float64 -> float64 -> float64 := SFsub prec emax.
Definition div : float64 -> float64 -> float64 := SFdiv prec emax.
Definition neg : float64 -> float64 := SFopp.
Definition ltb : float64 -> float64 -> bool := SFltb.
Definition leb : float64 -> float64 -> bool := SFleb.
Definition eqb : float64 -> float64 -> bool := SFeqb.

(** The number an integer denotes: the nearest binary64 value (the integer
    itself whenever its magnitude is at most 2^53). *)
Definition of_Z (z : Z) : float64 := binary_normalize prec emax z 0 false.

Definition zero : float64 := S754_zero false.
Definition NaN : float64 := S754_nan.
Definition infinity : float64 := S754_infinity false.
Definition neg_infinity : float64 := S754_infinity true.

Definition is_nan (x : float64) : bool :=
  match x with S754_nan => true | _ => false end.

Definition is_finite (x : float64) : bool :=
  match x with
  | S754_zero _ | S754_finite _ _ _ => true
  | S754_infinity _ | S754_nan => false
  end.

(** [x > 0], false on NaN: the test a sort applies to a comparator's
    result. *)
Definition gt0 (x : float64) : bool := ltb zero x.

(** [x < 0], false on NaN. *)
Definition lt0 (x : float64) : bool := ltb x zero.

(** The nearest binary64 value to [(-1)^s * m * 10^e10], as a decimal
    literal denotes it. *)
Definition of_decimal (s : bool) (m : Z) (e10 : Z) : float64 :=
  match m with
  | Zpos p =>
      if 0 <=? e10 then binary_round prec emax s (Z.to_pos (Zpos p * 10 ^ e10)) 0
      else SFdiv prec emax (S754_finite s p 0)
                 (S754_finite false (Z.to_pos (10 ^ (- e10))) 0)
  | _ => S754_zero s
  end.

(** The source's literals. *)
Definition lit_1000 : float64 := of_Z 1000.
Definition lit_0_0001 : float64 := S754_finite false 7378697629483821 (-66).

(** The exact value of a finite positive number as a fraction. *)
Definition fraction (m : positive) (e : Z) : Z * Z :=
  if 0 <=? e then (Zpos m * 2 ^ e, 1) else (Zpos m, 2 ^ (- e)).

End Num.

Abbreviation float64 := Num.float64.

(** ** Strings of digits, and the conversions between numbers and strings *)

Module Str.

Definition digits (n : Z) : string := NilZero.string_of_uint (N.to_uint (Z.to_N n)).

Definition is_digit (c : ascii) : bool :=
  let n := N_of_ascii c in ((48 <=? n) && (n <=? 57))%N.

Definition digit_value (c : ascii) : Z := Z.of_N (N_of_ascii c) - 48.

(** StrWhiteSpaceChar, on the ASCII range: TAB, LF, VT, FF, CR, SP. *)
Definition is_white (c : ascii) : bool :=
  let n := N_of_ascii c in (((9 <=? n) && (n <=? 13)) || (n =? 32))%N.

Fixpoint trim_start (s : string) : string :=
  match s with
  | String c s' => if is_white c then trim_start s' else s
  | EmptyString => s
  end.

Fixpoint trim_end (s : string) : string :=
  match s with
  | String c s' =>
      match trim_end s' with
      | EmptyString => if is_white c then EmptyString else String c EmptyString
      | t => String c t
      end
  | EmptyString => EmptyString
  end.

Definition trim (s : string) : string := trim_end (trim_start s).

Fixpoint strip_prefix (p s : string) : option string :=
  match p, s with
  | EmptyString, _ => Some s
  | String a p', String b s' => if Ascii.eqb a b then strip_prefix p' s' else None
  | String _ _, EmptyString => None
  end.

(** DecimalDigits: the value read so far, the number of digits read, and
    what follows them. *)
Fixpoint scan_digits (s : string) (acc cnt : Z) : Z * Z * string :=
  match s with
  | String c s' =>
      if is_digit c then scan_digits s' (10 * acc + digit_value c) (cnt + 1)
      else (acc, cnt, s)
  | EmptyString => (acc, cnt, s)
  end.

(** ExponentPart, when one is there: its value and the rest; otherwise
    nothing is consumed. *)
Definition parse_exponent (s : string) : Z * string :=
  match s with
  | String c s1 =>
      if Ascii.eqb c "e" || Ascii.eqb c "E" then
        let '(sg, s2) :=
          match s1 with
          | String "+" r => (false, r)
          | String "-" r => (true, r)
          | _ => (false, s1)
          end in
        let '(v, cnt, s3) := scan_digits s2 0 0 in
        if 0 <? cnt then (if sg then - v else v, s3) else (0, s)
      else (0, s)
  | EmptyString => (0, s)
  end.

Inductive Decimal := DInfinity | DFinite (m e10 : Z).

(** The longest prefix that is a StrUnsignedDecimalLiteral. *)
Definition parse_unsigned_decimal (s : string) : option (Decimal * string) :=
  match strip_prefix "Infinity" s with
  | Some r => Some (DInfinity, r)
  | None =>
      let '(i, ni, r1) := scan_digits s 0 0 in
      match r1 with
      | String "." r2 =>
          let '(m, nf, r3) := scan_digits r2 i 0 in
          if 0 <? ni + nf then
            let '(ex, r4) := parse_exponent r3 in Some (DFinite m (ex - nf), r4)
          else None
      | _ =>
          if 0 <? ni then
            let '(ex, r4) := parse_exponent r1 in Some (DFinite i ex, r4)
          else None
      end
  end.

Definition decimal_value (sg : bool) (d : Decimal) : float64 :=
  match d with
  | DInfinity => S754_infinity sg
  | DFinite m e10 => Num.of_decimal sg m e10
  end.

(** The longest prefix that is a StrDecimalLiteral, as a number. *)
Definition parse_decimal (s : string) : option (float64 * string) :=
  let '(sg, s1) :=
    match s with
    | String "+" r => (false, r)
    | String "-" r => (true, r)
    | _ => (false, s)
    end in
  match parse_unsigned_decimal s1 with
  | Some (d, r) => Some (decimal_value sg d, r)
  | None => None
  end.

Definition radix_digit (radix : Z) (c : ascii) : option Z :=
  let n := Z.of_N (N_of_ascii c) in
  let v := if (48 <=? n) && (n <=? 57) then n - 48
           else if (97 <=? n) && (n <=? 102) then n - 87
           else if (65 <=? n) && (n <=? 70) then n - 55
           else radix in
  if v <? radix then Some v else None.

Fixpoint scan_radix (radix : Z) (s : string) (acc : Z) : option Z :=
  match s with
  | String c s' =>
      match radix_digit radix c with
      | Some v => scan_radix radix s' (radix * acc + v)
      | None => None
      end
  | EmptyString => Some acc
  end.

(** NonDecimalIntegerLiteral: 0x, 0o, 0b and at least one digit. *)
Definition parse_non_decimal (s : string) : option Z :=
  match s with
  | String "0" (String c (String d r)) =>
      let body := String d r in
      if Ascii.eqb c "x" || Ascii.eqb c "X" then scan_radix 16 body 0
      else if Ascii.eqb c "o" || Ascii.eqb c "O" then scan_radix 8 body 0
      else if Ascii.eqb c "b" || Ascii.eqb c "B" then scan_radix 2 body 0
      else None
  | _ => None
  end.

(** StringToNumber (ECMA-262 7.1.4.1.1). *)
Definition StringToNumber (s : string) : float64 :=
  let t := trim s in
  match t with
  | EmptyString => Num.zero
  | _ =>
      match parse_non_decimal t with
      | Some z => Num.of_Z z
      | None =>
          match parse_decimal t with
          | Some (v, EmptyString) => v
          | _ => Num.NaN
          end
      end
  end.

(** parseFloat on a string (ECMA-262 19.2.4). *)
Definition parseFloat_string (s : string) : float64 :=
  match parse_decimal (trim_start s) with
  | Some (v, _) => v
  | None => Num.NaN
  end.

(** *** Number::toString (ECMA-262 6.1.6.1.20), radix 10 *)

Fixpoint count_digits (fuel : nat) (n : Z) : Z :=
  match fuel with
  | O => 0
  | S fuel' => if n <? 10 then 1 else 1 + count_digits fuel' (n / 10)
  end.

Fixpoint find_scale (fuel : nat) (num den j : Z) : Z :=
  match fuel with
  | O => j
  | S fuel' => if den <=? num * 10 ^ j then j else find_scale fuel' num den (j + 1)
  end.

(** The [n] with [10^(n-1) <= num/den < 10^n]. *)
Definition decimal_exponent (num den : Z) : Z :=
  if den <=? num then
    let q := num / den in count_digits (S (Z.to_nat (Z.log2 q))) q
  else 1 - find_scale (S (Z.to_nat (Z.log2 den))) num den 1.

Definition same_float (a b : float64) : bool :=
  match a, b with
  | S754_zero s, S754_zero t => Bool.eqb s t
  | S754_infinity s, S754_infinity t => Bool.eqb s t
  | S754_nan, S754_nan => true
  | S754_finite s m e, S754_finite t n f => Bool.eqb s t && Pos.eqb m n && Z.eqb e f
  | _, _ => false
  end.

(** The [k]-digit decimals next to [x = num/den]: the one that reads back
    as [x], the closer (then the even) one when both do. *)
Definition candidate (x : float64) (num den n0 k : Z) : option (Z * Z) :=
  let sc := k - n0 in
  let num' := if 0 <=? sc then num * 10 ^ sc else num in
  let den' := if 0 <=? sc then den else den * 10 ^ (- sc) in
  let lo := num' / den' in
  let hi := lo + 1 in
  let reads_back s := same_float (Num.of_decimal false s (n0 - k)) x in
  let norm s := if s =? 10 ^ k then (10 ^ (k - 1), n0 + 1) else (s, n0) in
  let d_lo := num' - lo * den' in
  let d_hi := hi * den' - num' in
  match reads_back lo, reads_back hi with
  | true, true =>
      if d_lo <? d_hi then Some (norm lo)
      else if d_hi <? d_lo then Some (norm hi)
      else Some (norm (if Z.even lo then lo else hi))
  | true, false => Some (norm lo)
  | false, true => Some (norm hi)
  | false, false => None
  end.

(** The shortest digits [s] (with their count [k]) and the exponent [n]
    such that [s * 10^(n-k)] reads back as [x]. *)
Fixpoint shortest (fuel : nat) (x : float64) (num den n0 k : Z) : Z * Z * Z :=
  match candidate x num den n0 k with
  | Some (s, n) => (s, k, n)
  | None =>
      match fuel with
      | O => (num * 10 ^ (k - n0) / den, k, n0)
      | S fuel' => shortest fuel' x num den n0 (k + 1)
      end
  end.

Definition zeros (n : Z) : string := string_of_list_ascii (repeat "0"%char (Z.to_nat n)).

Definition format_number (s k n : Z) : string :=
  let ds := digits s in
  if (k <=? n) && (n <=? 21) then ds +:+ zeros (n - k)
  else if (0 <? n) && (n <=? 21) then
    substring 0 (Z.to_nat n) ds +:+ "." +:+ substring (Z.to_nat n) (Z.to_nat (k - n)) ds
  else if (-6 <? n) && (n <=? 0) then "0." +:+ zeros (- n) +:+ ds
  else
    let e := n - 1 in
    let es := (if e <? 0 then "-" else "+") +:+ digits (Z.abs e) in
    if k =? 1 then ds +:+ "e" +:+ es
    else substring 0 1 ds +:+ "." +:+ substring 1 (Z.to_nat (k - 1)) ds +:+ "e" +:+ es.

Definition Number_toString (x : float64) : string :=
  match x with
  | S754_nan => "NaN"
  | S754_zero _ => "0"
  | S754_infinity sg => if sg then "-Infinity" else "Infinity"
  | S754_finite sg m e =>
      let '(num, den) := Num.fraction m e in
      let n0 := decimal_exponent num den in
      let '(s, k, n) := shortest 16 (S754_finite false m e) num den n0 1 in
      (if sg then "-" else "") +:+ format_number s k n
  end.

(** *** Number.prototype.toFixed (ECMA-262 21.1.3.3)

    [f] is the number of fraction digits; the source passes 4 and 5, inside
    the range 0..100 outside which the method throws a RangeError. *)

Definition fixed_digits (n : Z) (f : nat) : string :=
  let m := list_ascii_of_string (digits n) in
  let k := length m in
  let m := if (k <=? f)%nat then repeat "0"%char (f + 1 - k) ++ m else m in
  let k := length m in
  if (f =? 0)%nat then string_of_list_ascii m
  else string_of_list_ascii (firstn (k - f) m ++ "."%char :: skipn (k - f) m).

Definition toFixed (x : float64) (f : nat) : string :=
  match x with
  | S754_nan | S754_infinity _ => Number_toString x
  | S754_zero _ => fixed_digits 0 f
  | S754_finite sg m e =>
      let '(num, den) := Num.fraction m e in
      (if sg then "-" else "") +:+
      (if 10 ^ 21 * den <=? num then Number_toString (S754_finite false m e)
       else fixed_digits ((2 * num * 10 ^ Z.of_nat f + den) / (2 * den)) f)
  end.

End Str.

(** ** Values

    The values a record read from the JSON feed can hold, and a plain object
    of such values.  A missing property reads as [JUndefined]. *)

#[warnings="-register-all"]
Inductive JsVal :=
| JUndefined
| JNull
| JBool (b : bool)
| JNum (x : float64)
| JStr (s : string)
| JObj (props : list (string * JsVal)).

Fixpoint assoc (k : string) (props : list (string * JsVal)) : JsVal :=
  match props with
  | [] => JUndefined
  | (k', v) :: rest => if String.eqb k k' then v else assoc k rest
  end.

(** [v.k] for a property name [k] that no prototype defines (the source reads
    [cases], [deaths] and [popData2019]): reading from [undefined] or [null]
    throws, a primitive has no such property. *)
Definition Get (v : JsVal) (k : string) : Completion JsVal :=
  match v with
  | JUndefined | JNull => Throw TypeError
  | JObj props => Normal (assoc k props)
  | JBool _ | JNum _ | JStr _ => Normal JUndefined
  end.

Definition ToBoolean (v : JsVal) : bool :=
  match v with
  | JUndefined | JNull => false
  | JBool b => b
  | JNum x => negb (Num.is_nan x || Num.eqb x Num.zero)
  | JStr s => negb (String.eqb s "")
  | JObj _ => true
  end.

Definition ToNumber (v : JsVal) : float64 :=
  match v with
  | JUndefined => Num.NaN
  | JNull => Num.zero
  | JBool b => if b then Num.of_Z 1 else Num.zero
  | JNum x => x
  | JStr s => Str.StringToNumber s
  | JObj _ => Num.NaN
  end.

Definition ToString (v : JsVal) : string :=
  match v with
  | JUndefined => "undefined"
  | JNull => "null"
  | JBool b => if b then "true" else "false"
  | JNum x => Str.Number_toString x
  | JStr s => s
  | JObj _ => "[object Object]"
  end.

(** [v === 0] and [v === null]. *)
Definition is_zero_number (v : JsVal) : bool :=
  match v with
  | JNum x => Num.eqb x Num.zero
  | _ => false
  end.

Definition is_null (v : JsVal) : bool :=
  match v with
  | JNull => true
  | _ => false
  end.

(** The global [isNaN], [isFinite] and [parseFloat]. *)
Definition isNaN (v : JsVal) : bool := Num.is_nan (ToNumber v).
Definition isFinite (v : JsVal) : bool := Num.is_finite (ToNumber v).
Definition parseFloat (v : JsVal) : float64 := Str.parseFloat_string (ToString v).

(** ** utils.js: [calculatePer1000] *)

Record Per1000 := { numericValue : float64; displayValue : string }.

Definition calculatePer1000 (data : JsVal) (forDeaths : bool) : Completion Per1000 :=
  value ← Get data (if forDeaths then "deaths" else "cases");
  if negb (ToBoolean data) || is_zero_number value then
    Normal {| numericValue := Num.zero; displayValue := "0" |}
  else
    popData2019 ← Get data "popData2019";
    if is_null popData2019 then
      Normal {| numericValue := Num.zero; displayValue := "0" |}
    else
      let per1000 := Num.div (ToNumber value) (Num.div (ToNumber popData2019) Num.lit_1000) in
      let numericValue := if Num.is_finite per1000 then per1000 else Num.lit_0_0001 in
      let displayValue :=
        if Num.is_finite per1000 then
          if Num.ltb per1000 Num.lit_0_0001 then "<0.0001" else Str.toFixed per1000 4
        else "0" in
      Normal {| numericValue := numericValue; displayValue := displayValue |}.

(** The list of column names offered for filtering. *)
Definition getColumnOptions : list (string * string) :=
  map (fun column => (column, column))
      ["cases"; "deaths"; "totalCases"; "totalDeaths"; "casesPer1000"; "deathsPer1000";
       "averageCases"; "averageDeaths"; "maxCases"; "maxDeaths"]%string.

(** ** App.js: the records of the feed and the rows of the table

    Counts are JavaScript numbers holding integers (the feed's [cases] and
    [deaths]); they are kept as [Z] and added in [Z], which is what the
    engine computes as long as the sums stay within the safe-integer range
    (magnitude at most 2^53).  [Num.of_Z] gives the number they denote. *)

Module Raw.
Record t := {
  countriesAndTerritories : string;
  dateRep : string;
  cases : Z;
  deaths : Z;
  popData2019 : option float64   (* [None] is JSON's [null] *)
}.

(** The record as the object [JSON.parse] produced. *)
Definition to_js (r : t) : JsVal :=
  JObj [("dateRep", JStr (dateRep r));
        ("cases", JNum (Num.of_Z (cases r)));
        ("deaths", JNum (Num.of_Z (deaths r)));
        ("countriesAndTerritories", JStr (countriesAndTerritories r));
        ("popData2019", match popData2019 r with Some p => JNum p | None => JNull end)]%string.
End Raw.

Record Row := {
  country : string;
  cases : Z;
  deaths : Z;
  casesPer1000 : string;
  deathsPer1000 : string;
  date : string;
  totalCases : JsVal;
  totalDeaths : JsVal;
  averageCases : JsVal;
  averageDeaths : JsVal;
  maxCases : JsVal;
  maxDeaths : JsVal
}.

(** [if (totals[key]) totals[key] += n; else totals[key] = n]: a total that
    is absent, or present and zero (falsy), is overwritten. *)
Definition accumulate (totals : gmap string Z) (key : string) (n : Z) : gmap string Z :=
  match totals !! key with
  | Some t => if t =? 0 then <[key := n]> totals else <[key := t + n]> totals
  | None => <[key := n]> totals
  end.

(** [totals[key]] read back into a row. *)
Definition lookup_total (totals : gmap string Z) (key : string) : JsVal :=
  match totals !! key with
  | Some t => JNum (Num.of_Z t)
  | None => JUndefined
  end.

Record Totals := {
  allData : list Row;
  totalCases_by_country : gmap string Z;
  totalDeaths_by_country : gmap string Z
}.

(** The body of the first [records.forEach]. *)
Definition processRecord (st : Totals) (record : Raw.t) : Completion Totals :=
  let country := Raw.countriesAndTerritories record in
  let cases := Raw.cases record in
  let deaths := Raw.deaths record in
  let date := Raw.dateRep record in
  c ← calculatePer1000 (Raw.to_js record) false;
  d ← calculatePer1000 (Raw.to_js record) true;
  let casesPer1000 := Str.toFixed (numericValue c) 5 in
  let deathsPer1000 := Str.toFixed (numericValue d) 5 in
  let newData := {|
    country := country; cases := cases; deaths := deaths;
    casesPer1000 := casesPer1000; deathsPer1000 := deathsPer1000;
    date := date;
    totalCases := JNum Num.zero; totalDeaths := JNum Num.zero;
    averageCases := JNum Num.zero; averageDeaths := JNum Num.zero;
    maxCases := JNum Num.zero; maxDeaths := JNum Num.zero |} in
  Normal {| allData := allData st ++ [newData];
            totalCases_by_country := accumulate (totalCases_by_country st) country cases;
            totalDeaths_by_country := accumulate (totalDeaths_by_country st) country deaths |}.

Fixpoint forEach_record (st : Totals) (records : list Raw.t) : Completion Totals :=
  match records with
  | [] => Normal st
  | record :: rest => st' ← processRecord st record; forEach_record st' rest
  end.

(** The totals written back into every row. *)
Definition backfill_totals (st : Totals) : list Row :=
  map (fun data =>
         {| country := country data; cases := cases data; deaths := deaths data;
            casesPer1000 := casesPer1000 data; deathsPer1000 := deathsPer1000 data;
            date := date data;
            totalCases := lookup_total (totalCases_by_country st) (country data);
            totalDeaths := lookup_total (totalDeaths_by_country st) (country data);
            averageCases := averageCases data; averageDeaths := averageDeaths data;
            maxCases := maxCases data; maxDeaths := maxDeaths data |})
      (allData st).

(** [dailyData]: an object keyed by date string whose entries hold the two
    arrays; the association list keeps the keys in insertion order, the
    order [Object.keys] lists them in. *)
Definition DailyData := list (string * (list Z * list Z)).

Fixpoint daily_add (dailyData : DailyData) (date : string) (dailyCases dailyDeaths : Z)
  : DailyData :=
  match dailyData with
  | [] => [(date, ([dailyCases], [dailyDeaths]))]
  | (k, (cs, ds)) :: rest =>
      if String.eqb k date then (k, (cs ++ [dailyCases], ds ++ [dailyDeaths])) :: rest
      else (k, (cs, ds)) :: daily_add rest date dailyCases dailyDeaths
  end.

Definition build_dailyData (records : list Raw.t) : DailyData :=
  fold_left (fun dailyData record =>
               daily_add dailyData (Raw.dateRep record) (Raw.cases record) (Raw.deaths record))
            records [].

(** [array.reduce((sum, x) => sum + x, 0) / array.length]. *)
Definition average (array : list Z) : float64 :=
  Num.div (Num.of_Z (fold_left Z.add array 0)) (Num.of_Z (Z.of_nat (length array))).

(** [Math.max(...array)]: negative infinity for no argument. *)
Definition Math_max (array : list Z) : float64 :=
  match array with
  | [] => Num.neg_infinity
  | x :: rest => Num.of_Z (fold_left Z.max rest x)
  end.

(** The body of [Object.keys(dailyData).forEach]: the statistics of one date,
    written into the rows of that date. *)
Definition backfill_date (allData : list Row) (entry : string * (list Z * list Z)) : list Row :=
  let '(date0, (casesArray, deathsArray)) := entry in
  let averageCases0 := Str.toFixed (average casesArray) 4 in
  let averageDeaths0 := Str.toFixed (average deathsArray) 4 in
  let maxCases0 := Str.toFixed (Math_max casesArray) 4 in
  let maxDeaths0 := Str.toFixed (Math_max deathsArray) 4 in
  map (fun data =>
         if String.eqb (date data) date0 then
           {| country := country data; cases := cases data; deaths := deaths data;
              casesPer1000 := casesPer1000 data; deathsPer1000 := deathsPer1000 data;
              date := date data;
              totalCases := totalCases data; totalDeaths := totalDeaths data;
              averageCases := JStr averageCases0; averageDeaths := JStr averageDeaths0;
              maxCases := JStr maxCases0; maxDeaths := JStr maxDeaths0 |}
         else data)
      allData.

(** [aggregateDataByDate]: one point per date, in first-seen order. *)
Record TimeSeriesPoint := { ts_date : string; ts_totalCases : Z; ts_totalDeaths : Z }.

Fixpoint aggregate_add (aggregatedData : list TimeSeriesPoint) (record : Raw.t)
  : list TimeSeriesPoint :=
  match aggregatedData with
  | [] => [{| ts_date := Raw.dateRep record;
              ts_totalCases := Raw.cases record; ts_totalDeaths := Raw.deaths record |}]
  | p :: rest =>
      if String.eqb (ts_date p) (Raw.dateRep record) then
        {| ts_date := ts_date p;
           ts_totalCases := ts_totalCases p + Raw.cases record;
           ts_totalDeaths := ts_totalDeaths p + Raw.deaths record |} :: rest
      else p :: aggregate_add rest record
  end.

Definition aggregateDataByDate (data : list Raw.t) : list TimeSeriesPoint :=
  fold_left aggregate_add data [].

(** [fetchData] after the response has arrived: [allData0] is the array the
    component state holds when the effect runs (empty on mount); the result
    is that array as [setAllData] receives it, and the chart's series. *)
Definition fetchData (allData0 : list Row) (records : list Raw.t)
  : Completion (list Row * list TimeSeriesPoint) :=
  st ← forEach_record {| allData := allData0;
                         totalCases_by_country := ∅;
                         totalDeaths_by_country := ∅ |} records;
  let aggregatedData := aggregateDataByDate records in
  let allData1 := backfill_totals st in
  let dailyData := build_dailyData records in
  let allData2 := fold_left backfill_date dailyData allData1 in
  Normal (allData2, aggregatedData).

(** ** App.js: the date clause of the filter

    A [Date] object is its time value: [None] is NaN (an invalid date),
    [Some t] is [t] milliseconds.  Dates built from a date-only string are
    local midnights; time values are kept on the local civil clock, which
    orders them as the engine's UTC time values are ordered. *)

Module JsDate.

Definition t := option Z.

Definition msPerDay : Z := 86400000.

(** Days from 1970-01-01 to the first of month [m] (1..12) of year [y]. *)
Definition days_from_civil (y m : Z) : Z :=
  let y' := if m <=? 2 then y - 1 else y in
  let era := y' / 400 in
  let yoe := y' - era * 400 in
  let doy := (153 * (if 2 <? m then m - 3 else m + 9) + 2) / 5 in
  era * 146097 + (yoe * 365 + yoe / 4 - yoe / 100 + doy) - 719468.

(** MakeDay (ECMA-262 21.4.1.28) with a 0-based month, and MakeDate at
    time 0, clipped to the range of time values. *)
Definition MakeDay (year month date : Z) : Z :=
  days_from_civil (year + month / 12) (month mod 12 + 1) + date - 1.

Definition TimeClip (tv : Z) : t :=
  if Z.abs tv <=? 8640000000000000 then Some tv else None.

Fixpoint split_on (sep : ascii) (s : string) : list string :=
  match s with
  | EmptyString => [EmptyString]
  | String c s' =>
      if Ascii.eqb c sep then EmptyString :: split_on sep s'
      else match split_on sep s' with
           | p :: ps => String c p :: ps
           | [] => [String c EmptyString]
           end
  end.

Definition parse_numeral (s : string) : option Z :=
  match Str.scan_digits s 0 0 with
  | (v, cnt, EmptyString) => if 0 <? cnt then Some v else None
  | _ => None
  end.

Definition is_day (n : Z) : bool := (1 <=? n) && (n <=? 31).
Definition is_month (n : Z) : bool := (1 <=? n) && (n <=? 12).

(** Three numerals of a string that is not in the ISO format, as the
    engines' fallback parser composes them: month, day, year, unless the
    first cannot be a day, which makes it the year; a two-digit year is
    in 1950..2049. *)
Definition compose_day (c0 c1 c2 : Z) : t :=
  let '(year, month, day) := if is_day c0 then (c2, c0, c1) else (c0, c1, c2) in
  let year :=
    if (0 <=? year) && (year <=? 49) then year + 2000
    else if (50 <=? year) && (year <=? 99) then year + 1900
    else year in
  if is_month month && is_day day then TimeClip (MakeDay year (month - 1) day * msPerDay)
  else None.

(** [new Date(s)] for a string [s] of three numerals separated by
    slashes, the shape of the feed's [dateRep]; strings of another
    shape are outside the model and read as invalid dates. *)
Definition parse (s : string) : t :=
  match map parse_numeral (split_on "/" s) with
  | [Some c0; Some c1; Some c2] => compose_day c0 c1 c2
  | _ => None
  end.

(** [const [day, month, year] = dateRep.split('/');
    new Date(`${month}/${day}/${year}`)] (the [dates] of [fetchData]). *)
Definition of_dateRep (dateRep : string) : t :=
  let parts := split_on "/" dateRep in
  let part i := nth i parts "undefined"%string in
  parse (part 1%nat +:+ "/" +:+ part 0%nat +:+ "/" +:+ part 2%nat).

End JsDate.

(** [startDate] and [endDate] are [null] ([None]) or a [Date]. *)
Definition isDateValid (entry : Row) (startDate endDate : option JsDate.t) : bool :=
  let entryDate := JsDate.parse (date entry) in
  match entryDate with
  | None => false
  | Some e =>
      match startDate with
      | None => true
      | Some None => true
      | Some (Some s) => s <=? e
      end
      &&
      match endDate with
      | None => true
      | Some None => true
      | Some (Some f) => e <=? f
      end
  end.

(** ** App.js: pagination

    [itemsPerPage] and [currentPage] are numbers holding integers.  For the
    length of an array and a non-zero integer divisor, [Math.ceil(a / b)] is
    the integer ceiling of the quotient: the division's rounding error is
    below the quotient's distance to the nearest integer.  A zero divisor
    gives infinity or NaN, and a negative one gives a zero its minus sign. *)

Definition totalPages (filteredData : list Row) (itemsPerPage : Z) : float64 :=
  let len := Z.of_nat (length filteredData) in
  if itemsPerPage =? 0 then (if len =? 0 then Num.NaN else Num.infinity)
  else
    let pages := - ((- len) / itemsPerPage) in
    if (pages =? 0) && (itemsPerPage <? 0) then S754_zero true else Num.of_Z pages.

(** Array.prototype.slice (ECMA-262 23.1.3.28) with integer arguments. *)
Definition Array_slice {A : Type} (O : list A) (start end_ : Z) : list A :=
  let len := Z.of_nat (length O) in
  let k := if start <? 0 then Z.max (len + start) 0 else Z.min start len in
  let final := if end_ <? 0 then Z.max (len + end_) 0 else Z.min end_ len in
  firstn (Z.to_nat (final - k)) (skipn (Z.to_nat k) O).

(** The rows of the table body. *)
Definition pageRows (sortedFilteredData : list Row) (currentPage itemsPerPage : Z) : list Row :=
  Array_slice sortedFilteredData ((currentPage - 1) * itemsPerPage) (currentPage * itemsPerPage).

(** ** utils.js: [sortData] *)

(** String.prototype.localeCompare is defined by the host's locale; only
    the sign of its result is used. *)
Class Collator := { localeCompare : string -> string -> comparison }.

(** ECMA-262 requires [localeCompare] to be a consistent comparison
    function on all strings. *)
Class ConsistentCollator (C : Collator) : Prop := {
  localeCompare_antisym : forall a b, localeCompare b a = CompOpp (localeCompare a b);
  localeCompare_trans : forall a b c,
      localeCompare a b <> Gt -> localeCompare b c <> Gt -> localeCompare a c <> Gt
}.

(** The collation by code units. *)
Definition codeunit_collator : Collator := {| localeCompare := String.compare |}.

Definition comparison_number (c : comparison) : float64 :=
  match c with
  | Lt => Num.of_Z (-1)
  | Eq => Num.zero
  | Gt => Num.of_Z 1
  end.

(** [a[column]] for a row; a column the row does not have reads as
    [undefined]. *)
Definition row_get (column : string) (a : Row) : JsVal :=
  if String.eqb column "country" then JStr (country a)
  else if String.eqb column "cases" then JNum (Num.of_Z (cases a))
  else if String.eqb column "deaths" then JNum (Num.of_Z (deaths a))
  else if String.eqb column "casesPer1000" then JStr (casesPer1000 a)
  else if String.eqb column "deathsPer1000" then JStr (deathsPer1000 a)
  else if String.eqb column "date" then JStr (date a)
  else if String.eqb column "totalCases" then totalCases a
  else if String.eqb column "totalDeaths" then totalDeaths a
  else if String.eqb column "averageCases" then averageCases a
  else if String.eqb column "averageDeaths" then averageDeaths a
  else if String.eqb column "maxCases" then maxCases a
  else if String.eqb column "maxDeaths" then maxDeaths a
  else JUndefined.

Definition numeric_columns : list string :=
  ["totalCases"; "totalDeaths"; "casesPer1000"; "deathsPer1000";
   "averageCases"; "averageDeaths"; "maxCases"; "maxDeaths"]%string.

Definition is_numeric_column (column : string) : bool :=
  existsb (String.eqb column) numeric_columns.

(** [v || '']. *)
Definition or_empty (v : JsVal) : JsVal := if ToBoolean v then v else JStr "".

(** [isNaN(v) ? parseFloat(v) || 0 : +v]. *)
Definition to_numeric (v : JsVal) : float64 :=
  if isNaN v then
    let p := parseFloat v in
    if ToBoolean (JNum p) then p else Num.of_Z 0
  else ToNumber v.

(** The value the [switch] assigns to [valueA] (and to [valueB]). *)
Definition switch_value (column : string) (a : Row) : JsVal :=
  if String.eqb column "country" then or_empty (row_get column a)
  else if is_numeric_column column then JNum (to_numeric (row_get column a))
  else JStr (ToString (or_empty (row_get column a))).

Section Sorting.
Context {C : Collator}.

(** [valueA.localeCompare(valueB)]: only a string has the method. *)
Definition call_localeCompare (valueA valueB : JsVal) : Completion float64 :=
  match valueA with
  | JStr sa => Normal (comparison_number (localeCompare sa (ToString valueB)))
  | _ => Throw TypeError
  end.

(** The comparator handed to [sort]. *)
Definition compareFn (column direction : string) (a b : Row) : Completion float64 :=
  let valueA := switch_value column a in
  let valueB := switch_value column b in
  comparison ←
    (if isNaN valueA || isNaN valueB then call_localeCompare valueA valueB
     else Normal (Num.sub (ToNumber valueA) (ToNumber valueB)));
  Normal (if String.eqb direction "asc" then comparison else Num.neg comparison).

(** Array.prototype.sort: a stable sort, the first exception of the
    comparator ending it.  For a consistent comparator every stable sort
    returns this list; [x] is placed after the elements it compares
    greater than (a NaN result counts as 0). *)
Fixpoint sort_insert {A : Type} (comparefn : A -> A -> Completion float64)
         (x : A) (sorted : list A) : Completion (list A) :=
  match sorted with
  | [] => Normal [x]
  | y :: rest =>
      v ← comparefn x y;
      if Num.gt0 v then (r ← sort_insert comparefn x rest; Normal (y :: r))
      else Normal (x :: sorted)
  end.

Fixpoint Array_sort {A : Type} (comparefn : A -> A -> Completion float64)
         (items : list A) : Completion (list A) :=
  match items with
  | [] => Normal []
  | x :: rest => s ← Array_sort comparefn rest; sort_insert comparefn x s
  end.

(** The store of arrays: [sortData] receives a reference to an array,
    copies it into a new array, sorts the copy in place and returns the
    reference to the copy. *)
Definition Heap := gmap positive (list Row).

Definition sortData (data : positive) (column direction : string) (h : Heap)
  : Completion (positive * Heap) :=
  match h !! data with
  | None => Throw TypeError
  | Some elements =>
      let sortedData := fresh (dom h) in
      let h1 := <[sortedData := elements]> h in
      sorted ← Array_sort (compareFn column direction) elements;
      Normal (sortedData, <[sortedData := sorted]> h1)
  end.

(** The contents of the array [sortData] returns. *)
Definition sortedRows (column direction : string) (rows : list Row) : Completion (list Row) :=
  Array_sort (compareFn column direction) rows.

End Sorting.

(** ** Vocabulary of the statements *)



(** The integer a list of digits spells. *)
Definition digits_value (l : list ascii) : Z :=
  fold_left (fun acc c => 10 * acc + Str.digit_value c) l 0.




Definition sum_Z (l : list Z) : Z := fold_right Z.add 0 l.

(** The records of one date and of one country, in the order of the feed. *)
Definition records_of_date (d : string) (records : list Raw.t) : list Raw.t :=
  List.filter (fun r => String.eqb (Raw.dateRep r) d) records.




Section Order.
Context {C : Collator}.

(** [a] sorts after [b]: the comparator's result on [(a, b)] is positive. *)
Definition sorts_after (column direction : string) (a b : Row) : bool :=
  match compareFn column direction a b with
  | Normal v => Num.gt0 v
  | Throw _ => false
  end.

(** No two rows at different positions compare equal. *)
Fixpoint no_ties (column direction : string) (rows : list Row) : bool :=
  match rows with
  | [] => true
  | a :: rest =>
      forallb (fun b => sorts_after column direction a b || sorts_after column direction b a) rest
      && no_ties column direction rest
  end.

(** The comparator is transitive on the rows. *)
Definition transitive_on (column direction : string) (rows : list Row) : bool :=
  forallb (fun a =>
    forallb (fun b =>
      forallb (fun c =>
        implb (sorts_after column direction a b && sorts_after column direction b c)
              (sorts_after column direction a c)) rows) rows) rows.

(** The rows are strictly and totally ordered by the comparator. *)
Definition strictly_ordered (column direction : string) (rows : list Row) : bool :=
  no_ties column direction rows && transitive_on column direction rows.
End Order.

(** ** Sample data *)

Definition sample_record (c d : string) (n m : Z) (p : option float64) : Raw.t :=
  {| Raw.countriesAndTerritories := c; Raw.dateRep := d;
     Raw.cases := n; Raw.deaths := m; Raw.popData2019 := p |}.

Definition sample_row (c d : string) (n : Z) (maxC : JsVal) : Row :=
  {| country := c; cases := n; deaths := 0;
     casesPer1000 := "0.00000"; deathsPer1000 := "0.00000"; date := d;
     totalCases := JNum (Num.of_Z n); totalDeaths := JNum Num.zero;
     averageCases := JStr "0.0000"; averageDeaths := JStr "0.0000";
     maxCases := maxC; maxDeaths := JStr "0.0000" |}.

Definition sample_object (n : float64) (p : JsVal) : JsVal :=
  JObj [("cases", JNum n); ("deaths", JNum Num.zero); ("popData2019", p)]%string.

(** ** Auxiliary definitions of the proofs *)

(** The string [fetchData] stores for a rate: the numeric value at five
    fraction digits. *)
Definition per1000_string (r : Raw.t) (forDeaths : bool) : string :=
  match calculatePer1000 (Raw.to_js r) forDeaths with
  | Normal p => Str.toFixed (numericValue p) 5
  | Throw _ => ""
  end.

(** The row pushed for a record, before any back-fill. *)
Definition new_row (r : Raw.t) : Row :=
  {| country := Raw.countriesAndTerritories r; cases := Raw.cases r; deaths := Raw.deaths r;
     casesPer1000 := per1000_string r false; deathsPer1000 := per1000_string r true;
     date := Raw.dateRep r;
     totalCases := JNum Num.zero; totalDeaths := JNum Num.zero;
     averageCases := JNum Num.zero; averageDeaths := JNum Num.zero;
     maxCases := JNum Num.zero; maxDeaths := JNum Num.zero |}.

(** [dailyData[d]]. *)
Definition daily_lookup (d : string) (dailyData : DailyData) : option (list Z * list Z) :=
  snd <$> List.find (fun e => String.eqb (fst e) d) dailyData.

(** A row with the statistics of its date written in. *)
Definition with_stats (arrays : list Z * list Z) (data : Row) : Row :=
  {| country := country data; cases := cases data; deaths := deaths data;
     casesPer1000 := casesPer1000 data; deathsPer1000 := deathsPer1000 data;
     date := date data;
     totalCases := totalCases data; totalDeaths := totalDeaths data;
     averageCases := JStr (Str.toFixed (average (fst arrays)) 4);
     averageDeaths := JStr (Str.toFixed (average (snd arrays)) 4);
     maxCases := JStr (Str.toFixed (Math_max (fst arrays)) 4);
     maxDeaths := JStr (Str.toFixed (Math_max (snd arrays)) 4) |}.

(** A row with the totals of its country written in. *)
Definition with_totals (tc td : gmap string Z) (data : Row) : Row :=
  {| country := country data; cases := cases data; deaths := deaths data;
     casesPer1000 := casesPer1000 data; deathsPer1000 := deathsPer1000 data;
     date := date data;
     totalCases := lookup_total tc (country data);
     totalDeaths := lookup_total td (country data);
     averageCases := averageCases data; averageDeaths := averageDeaths data;
     maxCases := maxCases data; maxDeaths := maxDeaths data |}.

(** The totals after the first loop, from the totals before it. *)
Definition accumulate_all (key : Raw.t -> string) (f : Raw.t -> Z)
    (records : list Raw.t) (totals : gmap string Z) : gmap string Z :=
  fold_left (fun m r => accumulate m (key r) (f r)) records totals.

(** The row [fetchData] leaves for the record [r] of [records]. *)
Definition final_row (records : list Raw.t) (r : Raw.t) : Row :=
  let by_date := records_of_date (Raw.dateRep r) records in
  with_stats (map Raw.cases by_date, map Raw.deaths by_date)
    (with_totals (accumulate_all Raw.countriesAndTerritories Raw.cases records ∅)
                 (accumulate_all Raw.countriesAndTerritories Raw.deaths records ∅)
                 (new_row r)).

(** The stable insertion sort by a total "sorts after" test: what
    [Array_sort] computes when the comparator never throws. *)
Fixpoint insert_by {A : Type} (after : A -> A -> bool) (x : A) (l : list A) : list A :=
  match l with
  | [] => [x]
  | y :: rest => if after x y then y :: insert_by after x rest else x :: l
  end.

Fixpoint isort {A : Type} (after : A -> A -> bool) (l : list A) : list A :=
  match l with
  | [] => []
  | x :: rest => insert_by after x (isort after rest)
  end.

(** The number the comparator returns (it never throws on rows, as
    [compareFn_Normal] shows). *)
Definition compare_value {C : Collator} (column direction : string) (a b : Row) : float64 :=
  match compareFn column direction a b with
  | Normal v => v
  | Throw _ => Num.NaN
  end.

(** Three rows of distinct countries, and two whose [maxCases] do not
    read as numbers. *)
Definition sample_rows : list Row :=
  [sample_row "b" "01/03/2020" 3 (JStr "3.0000");
   sample_row "a" "02/03/2020" 5 (JStr "5.0000");
   sample_row "c" "03/03/2020" 4 (JStr "4.0000")].

Definition row_abc : Row := sample_row "X" "01/03/2020" 1 (JStr "abc").
Definition row_abd : Row := sample_row "Y" "01/03/2020" 2 (JStr "abd").

(** ** App.js: the options of the country selector

    [new Set(values)] keeps the distinct values in the order of their first
    insertion; [Array.from] lists them in that order. *)

Definition Set_add (set : list string) (value : string) : list string :=
  if existsb (String.eqb value) set then set else set ++ [value].

Definition Set_from (values : list string) : list string := fold_left Set_add values [].

(** Every option is a pair of a value and a label. *)
Definition getUniqueCountries (allData : list Row) : list (string * string) :=
  let uniqueCountriesSet := Set_from (map country allData) in
  map (fun uniqueCountry => (uniqueCountry, uniqueCountry)) uniqueCountriesSet.

(** ** App.js: the filter

    String.prototype.toLowerCase on the ASCII range, the range [Str.trim]
    is written for. *)

Definition toLowerCase_char (c : ascii) : ascii :=
  let n := N_of_ascii c in
  if ((65 <=? n) && (n <=? 90))%N then ascii_of_N (n + 32) else c.

Fixpoint toLowerCase (s : string) : string :=
  match s with
  | EmptyString => EmptyString
  | String c s' => String (toLowerCase_char c) (toLowerCase s')
  end.

Definition countryMatches (entry : Row) (selectedCountry : string) : bool :=
  let cleanedCountry := toLowerCase (Str.trim (country entry)) in
  let selectedCountryLower := toLowerCase selectedCountry in
  negb (ToBoolean (JStr selectedCountry)) || String.eqb cleanedCountry selectedCountryLower.

Definition is_undefined (v : JsVal) : bool :=
  match v with
  | JUndefined => true
  | _ => false
  end.

(** [selectedColumn] is [null] ([None]) or an option of [getColumnOptions];
    [minValue] and [maxValue] are the texts of the two inputs.  A row value
    is compared with a number: both sides are taken as numbers, and a
    comparison with NaN is false. *)
Definition isValueValid (entry : Row) (selectedColumn : option (string * string))
    (minValue maxValue : string) : bool :=
  match selectedColumn with
  | Some (value, _) =>
      if ToBoolean (JStr value) then
        let v := row_get value entry in
        negb (is_undefined v) && negb (is_null v)
        && (String.eqb minValue "" || Num.leb (parseFloat (JStr minValue)) (ToNumber v))
        && (String.eqb maxValue "" || Num.leb (ToNumber v) (parseFloat (JStr maxValue)))
      else true
  | None => true
  end.

Module Filters.
Record t := {
  selectedCountry : string;
  startDate : option JsDate.t;
  endDate : option JsDate.t;
  selectedColumn : option (string * string);
  minValue : string;
  maxValue : string
}.

(** The state on mount. *)
Definition initial : t :=
  {| selectedCountry := ""; startDate := None; endDate := None;
     selectedColumn := None; minValue := ""; maxValue := "" |}.
End Filters.

(** [resetFilters], as far as the filter goes: it also sets [itemsPerPage]
    to 10 and [currentPage] to 1, and leaves the two dates and the sort as
    they are. *)
Definition resetFilters (f : Filters.t) : Filters.t :=
  {| Filters.selectedCountry := "";
     Filters.startDate := Filters.startDate f;
     Filters.endDate := Filters.endDate f;
     Filters.selectedColumn := None;
     Filters.minValue := "";
     Filters.maxValue := "" |}.

Definition filteredData (allData : list Row) (f : Filters.t) : list Row :=
  List.filter
    (fun entry =>
       countryMatches entry (Filters.selectedCountry f)
       && isDateValid entry (Filters.startDate f) (Filters.endDate f)
       && isValueValid entry (Filters.selectedColumn f) (Filters.minValue f) (Filters.maxValue f))
    allData.

(** ** App.js: the first and the last date of the feed

    [Math.min(...dates)] takes the dates as their time values; it is NaN as
    soon as one of them is, and plus infinity for no argument; [new Date]
    of either is an invalid date ([Math.max] alike, with minus infinity).
    The engine's limit on the number of arguments of a call is not
    modelled. *)

Definition dates (records : list Raw.t) : list JsDate.t :=
  map (fun record => JsDate.of_dateRep (Raw.dateRep record)) records.

Definition Date_of_extremum (pick : Z -> Z -> Z) (dates : list JsDate.t) : JsDate.t :=
  match dates with
  | [] => None
  | d :: rest =>
      extremum ← fold_left (fun acc d' => a ← acc; b ← d'; Some (pick a b)) rest d;
      JsDate.TimeClip extremum
  end.

(** [new Date(Math.min(...dates))], the value of [minDate] and [startDate],
    and [new Date(Math.max(...dates))], the value of [maxDate] and
    [endDate]. *)
Definition minDate (records : list Raw.t) : JsDate.t := Date_of_extremum Z.min (dates records).
Definition maxDate (records : list Raw.t) : JsDate.t := Date_of_extremum Z.max (dates records).

(** ** App.js: the page buttons

    Page numbers are numbers holding integers (see the pagination above);
    [maxPageButtons] is a state that is never set. *)

Inductive PropValue :=
| PNumber (n : Z)
| PString (s : string).

Module PageButton.
(** The props of a [PageButton] element, with its React key; [onClick] is
    the page it hands to [paginate]. *)
Record t := {
  key : PropValue;
  label : PropValue;
  onClick : Z;
  buttonType : string
}.

(** utils.js, [PageButton]: the class of the rendered button. *)
Definition buttonClasses (b : t) : string := "button " +:+ buttonType b.
End PageButton.

Definition maxPageButtons : Z := 5.

(** The loop [for (let i = startPage; i <= endPage; i++)] runs over
    [seqZ startPage (endPage - startPage + 1)], which is empty when
    [endPage < startPage]. *)
Definition renderPageNumbers (currentPage totalPages : Z) : list PageButton.t :=
  let halfButtons := maxPageButtons / 2 in
  let startPage := currentPage - halfButtons in
  let endPage := currentPage + halfButtons in
  let '(startPage, endPage) :=
    if startPage <=? 0 then (1, Z.min maxPageButtons totalPages) else (startPage, endPage) in
  let '(startPage, endPage) :=
    if totalPages <? endPage then (Z.max 1 (totalPages - maxPageButtons + 1), totalPages)
    else (startPage, endPage) in
  (if 1 <? startPage then
     {| PageButton.key := PNumber 1; PageButton.label := PString "<<";
        PageButton.onClick := 1; PageButton.buttonType := "double-arrow" |}
     :: (if 2 <? startPage then
           [{| PageButton.key := PString "left-dots"; PageButton.label := PString "...";
               PageButton.onClick := startPage - 1; PageButton.buttonType := "ellipsis" |}]
         else [])
   else [])
  ++ map (fun i =>
            {| PageButton.key := PNumber i; PageButton.label := PNumber i;
               PageButton.onClick := i;
               PageButton.buttonType := if i =? currentPage then "current" else "normal" |})
         (seqZ startPage (endPage - startPage + 1))
  ++ (if endPage <? totalPages then
        (if endPage <? totalPages - 1 then
           [{| PageButton.key := PString "right-dots"; PageButton.label := PString "...";
               PageButton.onClick := endPage + 1; PageButton.buttonType := "ellipsis" |}]
         else [])
        ++ [{| PageButton.key := PNumber totalPages; PageButton.label := PString ">>";
               PageButton.onClick := totalPages; PageButton.buttonType := "double-arrow" |}]
      else []).

(** ** App.js: the sorted column and its direction *)

Module SortState.
Record t := {
  sortedColumn : option string;   (* [None] is [null] *)
  sortDirection : string
}.

Definition initial : t := {| sortedColumn := None; sortDirection := "asc" |}.
End SortState.

Definition handleColumnSort (st : SortState.t) (column : string) : SortState.t :=
  if decide (SortState.sortedColumn st = Some column) then
    {| SortState.sortedColumn := SortState.sortedColumn st;
       SortState.sortDirection :=
         if String.eqb (SortState.sortDirection st) "asc" then "desc" else "asc" |}
  else {| SortState.sortedColumn := Some column; SortState.sortDirection := "asc" |}.

(** The column [sortData] receives: [null] matches no case of the switch
    and reads the property named "null". *)
Definition column_key (sortedColumn : option string) : string :=
  match sortedColumn with
  | Some column => column
  | None => "null"
  end.

(** ** Chart.js: the two series of the chart

    [parse(text, 'dd/MM/yyyy', new Date())] belongs to the date-fns
    library; the chart is described for any such reading of a date string
    (the reference date fills in the fields a format leaves out, and this
    format leaves none out).  Time values are integers of milliseconds; their difference is taken in
    [Z] and given to the sort as the number it denotes. *)

Class DateParser := { parse_ddMMyyyy : string -> JsDate.t }.

Module Chart.

Record SortedRecord := {
  date : JsDate.t;
  totalCases : Z;
  totalDeaths : Z
}.

(** A point of a series: [x] is a time value ([None] is NaN). *)
Record DataPoint := { x : option Z; y : Z }.

(** [new Date(value)] for [null] (the epoch) and for a date (a copy). *)
Definition new_Date (value : option JsDate.t) : JsDate.t :=
  match value with
  | None => Some 0
  | Some d => d
  end.

(** [a >= b] and [a <= b] on time values, false on NaN. *)
Definition time_ge (a b : JsDate.t) : bool :=
  match a, b with
  | Some ta, Some tb => tb <=? ta
  | _, _ => false
  end.

Definition time_le (a b : JsDate.t) : bool :=
  match a, b with
  | Some ta, Some tb => ta <=? tb
  | _, _ => false
  end.

(** [getTime(a) - getTime(b)]. *)
Definition time_sub (a b : JsDate.t) : float64 :=
  match a, b with
  | Some ta, Some tb => Num.of_Z (ta - tb)
  | _, _ => Num.NaN
  end.

Section Series.
Context {P : DateParser}.

(** The points of [aggregateDataByDate] always have their two totals; only
    the tests on the date can fail. *)
Definition keeps (startDate endDate : option JsDate.t) (record : TimeSeriesPoint) : bool :=
  ToBoolean (JStr (ts_date record))
  && time_ge (parse_ddMMyyyy (ts_date record)) (new_Date startDate)
  && time_le (parse_ddMMyyyy (ts_date record)) (new_Date endDate).

(** [covidData.filter(...).map(...).sort(...)]. *)
Definition sortedData (startDate endDate : option JsDate.t) (covidData : list TimeSeriesPoint)
  : Completion (list SortedRecord) :=
  Array_sort (fun a b => Normal (time_sub (date a) (date b)))
    (map (fun record =>
            {| date := parse_ddMMyyyy (ts_date record);
               totalCases := ts_totalCases record;
               totalDeaths := ts_totalDeaths record |})
         (List.filter (keeps startDate endDate) covidData)).

Definition dataPointsTotalCases (sorted : list SortedRecord) : list DataPoint :=
  map (fun record => {| x := date record; y := totalCases record |}) sorted.

Definition dataPointsTotalDeaths (sorted : list SortedRecord) : list DataPoint :=
  map (fun record => {| x := date record; y := totalDeaths record |}) sorted.

End Series.
End Chart.

(** The day-first reading of [fetchData] as a parser, for the examples. *)
Definition day_first_parser : DateParser := {| parse_ddMMyyyy := JsDate.of_dateRep |}.

(** ** Vocabulary of the statements on the rest of the component *)

(** The numbered page buttons, and the pages they show. *)
Definition is_page_button (b : PageButton.t) : bool :=
  match PageButton.label b with
  | PNumber _ => true
  | PString _ => false
  end.

Definition numbered_pages (buttons : list PageButton.t) : list Z :=
  map PageButton.onClick (List.filter is_page_button buttons).

(** The string has no white space at either end. *)
Definition is_trimmed (s : string) : bool := String.eqb (Str.trim s) s.


(** The column is one of the fields of a row. *)
Definition row_columns : list string :=
  ["country"; "cases"; "deaths"; "casesPer1000"; "deathsPer1000"; "date";
   "totalCases"; "totalDeaths"; "averageCases"; "averageDeaths"; "maxCases"; "maxDeaths"]%string.

Definition is_row_column (column : string) : bool := existsb (String.eqb column) row_columns.

(** A time value within the two bounds of the chart. *)
Definition within_chart_range (startDate endDate : option JsDate.t) (t : Z) : bool :=
  Chart.time_ge (Some t) (Chart.new_Date startDate)
  && Chart.time_le (Some t) (Chart.new_Date endDate).

(** A string of decimal digits, one at least, and the integer it spells. *)
Definition is_numeral (s : string) : bool :=
  negb (String.eqb s "") && forallb Str.is_digit (list_ascii_of_string s).

Definition numeral_value (s : string) : Z := digits_value (list_ascii_of_string s).

(** Day, month and year joined by slashes. *)
Definition slashed (a b c : string) : string := a +:+ "/" +:+ b +:+ "/" +:+ c.

(** ** Auxiliary definitions of the proofs on the rest of the component *)

(** The three groups of buttons [renderPageNumbers] pushes, for a window of
    numbered pages from [startPage] to [endPage]. *)
Definition first_buttons (startPage : Z) : list PageButton.t :=
  if 1 <? startPage then
    {| PageButton.key := PNumber 1; PageButton.label := PString "<<";
       PageButton.onClick := 1; PageButton.buttonType := "double-arrow" |}
    :: (if 2 <? startPage then
          [{| PageButton.key := PString "left-dots"; PageButton.label := PString "...";
              PageButton.onClick := startPage - 1; PageButton.buttonType := "ellipsis" |}]
        else [])
  else [].

Definition page_button (currentPage i : Z) : PageButton.t :=
  {| PageButton.key := PNumber i; PageButton.label := PNumber i;
     PageButton.onClick := i;
     PageButton.buttonType := if i =? currentPage then "current" else "normal" |}.

Definition last_buttons (endPage totalPages : Z) : list PageButton.t :=
  if endPage <? totalPages then
    (if endPage <? totalPages - 1 then
       [{| PageButton.key := PString "right-dots"; PageButton.label := PString "...";
           PageButton.onClick := endPage + 1; PageButton.buttonType := "ellipsis" |}]
     else [])
    ++ [{| PageButton.key := PNumber totalPages; PageButton.label := PString ">>";
           PageButton.onClick := totalPages; PageButton.buttonType := "double-arrow" |}]
  else [].

Definition is_current (b : PageButton.t) : bool :=
  String.eqb (PageButton.buttonType b) "current".

(** The record the chart keeps for a point of the series. *)
Definition chart_record {P : DateParser} (record : TimeSeriesPoint) : Chart.SortedRecord :=
  {| Chart.date := parse_ddMMyyyy (ts_date record);
     Chart.totalCases := ts_totalCases record;
     Chart.totalDeaths := ts_totalDeaths record |}.

(** The mantissa and the exponent of a positive integer below 2^53 as a
    binary64 value. *)
Definition mantissa_of (p : positive) : positive :=
  match (53 - Z.pos (digits2_pos p))%Z with
  | Z.pos n => Pos.iter xO p n
  | _ => p
  end.

Definition exponent_of (p : positive) : Z := Z.pos (digits2_pos p) - 53.

(** * Theorems *)

(** ** Numbers *)

Lemma lit_0_0001_nearest :
  Num.div (Num.of_Z 1) (Num.of_Z 10000) = Num.lit_0_0001 /\
  Str.StringToNumber "0.0001" = Num.lit_0_0001.
Proof. split; vm_compute; reflexivity. Qed.

Lemma div_zero_lit_1000 (s : bool) : Num.div (S754_zero s) Num.lit_1000 = S754_zero s.
Proof. destruct s; vm_compute; reflexivity. Qed.

Lemma div_by_zero_not_finite (x : float64) (s : bool) :
  Num.is_finite (Num.div x (S754_zero s)) = false.
Proof. destruct x; reflexivity. Qed.

(** ** calculatePer1000 *)

Lemma calculatePer1000_object (props : list (string * JsVal)) (forDeaths : bool) :
  calculatePer1000 (JObj props) forDeaths =
  let value := assoc (if forDeaths then "deaths" else "cases") props in
  let popData2019 := assoc "popData2019" props in
  if is_zero_number value || is_null popData2019 then
    Normal {| numericValue := Num.zero; displayValue := "0" |}
  else
    let per1000 := Num.div (ToNumber value) (Num.div (ToNumber popData2019) Num.lit_1000) in
    Normal {| numericValue := if Num.is_finite per1000 then per1000 else Num.lit_0_0001;
              displayValue :=
                if Num.is_finite per1000 then
                  if Num.ltb per1000 Num.lit_0_0001 then "<0.0001" else Str.toFixed per1000 4
                else "0" |}.
Proof.
  unfold calculatePer1000. cbn [Get mbind Completion_bind ToBoolean negb orb].
  destruct (is_zero_number _); [reflexivity|].
  cbn [orb]. destruct (is_null _); reflexivity.
Qed.

(** C1 (the code departs from it): the property read [data.deaths] or
    [data.cases] comes before the test [!data], so the call on an absent
    record ([undefined], and [null] alike) throws a TypeError instead of
    returning the zero result, for either value of [forDeaths]. *)
Theorem calculatePer1000_absent_record_throws :
  calculatePer1000 JUndefined false = Throw TypeError /\
  calculatePer1000 JUndefined true = Throw TypeError /\
  calculatePer1000 JNull false = Throw TypeError /\
  calculatePer1000 JNull true = Throw TypeError.
Proof. repeat split; reflexivity. Qed.

(** Every other shape of input gets a result: a record with missing
    fields, and any primitive value in place of the record. *)
Lemma calculatePer1000_present_returns (data : JsVal) (forDeaths : bool) :
  data <> JUndefined -> data <> JNull ->
  exists r, calculatePer1000 data forDeaths = Normal r.
Proof.
  intros Hu Hn. destruct data as [| |b|x|s|props]; try congruence.
  - unfold calculatePer1000; cbn [Get mbind Completion_bind].
    destruct (_ || _); [eauto|]. cbn. eauto.
  - unfold calculatePer1000; cbn [Get mbind Completion_bind].
    destruct (_ || _); [eauto|]. cbn. eauto.
  - unfold calculatePer1000; cbn [Get mbind Completion_bind].
    destruct (_ || _); [eauto|]. cbn. eauto.
  - rewrite calculatePer1000_object. cbv zeta. destruct (_ || _); eauto.
Qed.

(** A rate that is not finite, whatever made it so, gives the
    placeholder 0.0001 with the display string "0". *)
Lemma calculatePer1000_non_finite
    (props : list (string * JsVal)) (forDeaths : bool) :
  let value := assoc (if forDeaths then "deaths" else "cases") props in
  let popData2019 := assoc "popData2019" props in
  is_zero_number value = false ->
  is_null popData2019 = false ->
  Num.is_finite (Num.div (ToNumber value) (Num.div (ToNumber popData2019) Num.lit_1000)) = false ->
  calculatePer1000 (JObj props) forDeaths =
  Normal {| numericValue := Num.lit_0_0001; displayValue := "0" |}.
Proof.
  intros value popData2019 Hv Hp Hfin. rewrite calculatePer1000_object. cbv zeta.
  fold value popData2019. rewrite Hv, Hp. cbn [orb]. rewrite Hfin. reflexivity.
Qed.

(** C3: for every record whose population is zero (of either sign) and
    whose selected count is not zero, the rate is not finite and
    [calculatePer1000] returns the numeric value 0.0001 with the display
    string "0". *)
Theorem calculatePer1000_zero_population
    (props : list (string * JsVal)) (forDeaths s : bool) :
  is_zero_number (assoc (if forDeaths then "deaths" else "cases") props) = false ->
  assoc "popData2019" props = JNum (S754_zero s) ->
  calculatePer1000 (JObj props) forDeaths =
  Normal {| numericValue := Num.lit_0_0001; displayValue := "0" |}.
Proof.
  intros Hv Hp. apply calculatePer1000_non_finite; cbv zeta.
  - exact Hv.
  - rewrite Hp. reflexivity.
  - rewrite Hp. cbn [ToNumber]. rewrite div_zero_lit_1000. apply div_by_zero_not_finite.
Qed.

Lemma calculatePer1000_zero_population_witness :
  calculatePer1000 (sample_object (Num.of_Z 7) (JNum Num.zero)) false =
  Normal {| numericValue := Num.lit_0_0001; displayValue := "0" |}.
Proof.
  apply (calculatePer1000_zero_population _ false false); reflexivity.
Defined.

(** ** Digit strings *)











(** ** toFixed on positive numbers *)









(** The four sample rates of the specification: a zero count, a null
    population, 1 case in 2,000,000 and 1 case in 20,000,000. *)
Example calculatePer1000_samples :
  calculatePer1000 (sample_object (Num.of_Z 0) (JNum (Num.of_Z 1000))) false =
    Normal {| numericValue := Num.zero; displayValue := "0" |} /\
  calculatePer1000 (sample_object (Num.of_Z 5) JNull) false =
    Normal {| numericValue := Num.zero; displayValue := "0" |} /\
  calculatePer1000 (sample_object (Num.of_Z 1) (JNum (Num.of_Z 2000000))) false =
    Normal {| numericValue := Str.StringToNumber "0.0005"; displayValue := "0.0005" |} /\
  calculatePer1000 (sample_object (Num.of_Z 1) (JNum (Num.of_Z 20000000))) false =
    Normal {| numericValue := Str.StringToNumber "0.00005"; displayValue := "<0.0001" |}.
Proof. vm_compute. repeat split; reflexivity. Qed.

(** ** fetchData: the first loop *)

Lemma calculatePer1000_record (r : Raw.t) (forDeaths : bool) :
  exists p, calculatePer1000 (Raw.to_js r) forDeaths = Normal p.
Proof.
  unfold Raw.to_js. rewrite calculatePer1000_object. cbv zeta.
  destruct (_ || _); eauto.
Qed.

Lemma processRecord_Normal (st : Totals) (r : Raw.t) :
  processRecord st r =
  Normal {| allData := allData st ++ [new_row r];
            totalCases_by_country :=
              accumulate (totalCases_by_country st) (Raw.countriesAndTerritories r) (Raw.cases r);
            totalDeaths_by_country :=
              accumulate (totalDeaths_by_country st) (Raw.countriesAndTerritories r) (Raw.deaths r) |}.
Proof.
  unfold processRecord, new_row, per1000_string.
  destruct (calculatePer1000_record r false) as [c ->].
  destruct (calculatePer1000_record r true) as [d ->].
  reflexivity.
Qed.

Lemma forEach_record_Normal (records : list Raw.t) (st : Totals) :
  forEach_record st records =
  Normal {| allData := allData st ++ map new_row records;
            totalCases_by_country :=
              accumulate_all Raw.countriesAndTerritories Raw.cases records
                             (totalCases_by_country st);
            totalDeaths_by_country :=
              accumulate_all Raw.countriesAndTerritories Raw.deaths records
                             (totalDeaths_by_country st) |}.
Proof.
  revert st. induction records as [|r records IH]; intros st; cbn [forEach_record].
  - cbn. rewrite app_nil_r. destruct st; reflexivity.
  - rewrite processRecord_Normal. cbn [mbind Completion_bind]. rewrite IH.
    cbn [allData totalCases_by_country totalDeaths_by_country map accumulate_all fold_left].
    rewrite <- app_assoc. reflexivity.
Qed.

(** ** The totals *)

Lemma accumulate_lookup (totals : gmap string Z) (key k : string) (n : Z) :
  accumulate totals key n !! k =
  if decide (key = k) then Some (default 0 (totals !! key) + n) else totals !! k.
Proof.
  unfold accumulate. destruct (totals !! key) as [t|] eqn:E; cbn [default].
  - destruct (Z.eqb_spec t 0) as [->|Hne]; rewrite lookup_insert; case_decide; reflexivity.
  - rewrite lookup_insert; case_decide; reflexivity.
Qed.


Lemma accumulate_all_lookup (key : Raw.t -> string) (f : Raw.t -> Z)
    (records : list Raw.t) (totals : gmap string Z) (k : string) :
  accumulate_all key f records totals !! k =
  match List.filter (fun r => String.eqb (key r) k) records with
  | [] => totals !! k
  | g => Some (default 0 (totals !! k) + sum_Z (map f g))
  end.
Proof.
  revert totals. induction records as [|r records IH]; intros totals; [reflexivity|].
  change (accumulate_all key f (r :: records) totals)
    with (accumulate_all key f records (accumulate totals (key r) (f r))).
  rewrite IH.
  cbn [List.filter]. rewrite accumulate_lookup.
  destruct (String.eqb_spec (key r) k) as [Heq|Hne].
  - rewrite decide_True by assumption. subst k. cbn [default map].
    destruct (List.filter _ records) as [|r' g]; unfold sum_Z; cbn [map fold_right default from_option id]; f_equal; lia.
  - rewrite decide_False by assumption. reflexivity.
Qed.

(** ** The daily statistics *)

Lemma daily_add_lookup (dailyData : DailyData) (d k : string) (c n : Z) :
  daily_lookup k (daily_add dailyData d c n) =
  if String.eqb d k then
    Some (match daily_lookup d dailyData with
          | Some (cs, ds) => (cs ++ [c], ds ++ [n])
          | None => ([c], [n])
          end)
  else daily_lookup k dailyData.
Proof.
  unfold daily_lookup.
  induction dailyData as [|[k' [cs ds]] rest IH]; cbn [daily_add List.find fst snd].
  - destruct (String.eqb_spec d k); reflexivity.
  - destruct (String.eqb_spec k' d) as [->|Hne]; cbn [List.find fst snd].
    + destruct (String.eqb_spec d k); reflexivity.
    + destruct (String.eqb_spec k' k) as [->|Hne'].
      * destruct (String.eqb_spec d k); [congruence|reflexivity].
      * exact IH.
Qed.

Lemma daily_add_keys (dailyData : DailyData) (d : string) (c n : Z) :
  NoDup (map fst dailyData) ->
  NoDup (map fst (daily_add dailyData d c n)) /\
  (forall k, In k (map fst (daily_add dailyData d c n)) <-> k = d \/ In k (map fst dailyData)).
Proof.
  induction dailyData as [|[k' [cs ds]] rest IH]; cbn [daily_add map fst]; intros Hnd.
  - split; [apply NoDup_singleton|]. intros k; cbn; intuition.
  - apply NoDup_cons in Hnd as Hnd'. destruct Hnd' as [Hnotin Hrest].
    destruct (String.eqb_spec k' d) as [->|Hne]; cbn [map fst].
    + split; [assumption|]. intros k; cbn; intuition.
    + destruct (IH Hrest) as [IH1 IH2]. split.
      * apply NoDup_cons_2; [|assumption]. rewrite list_elem_of_In, IH2.
        rewrite list_elem_of_In in Hnotin. intuition.
      * intros k; cbn; rewrite IH2; intuition.
Qed.

Lemma build_dailyData_spec (records : list Raw.t) (dailyData : DailyData) :
  NoDup (map fst dailyData) ->
  let result :=
    fold_left (fun dd record =>
                 daily_add dd (Raw.dateRep record) (Raw.cases record) (Raw.deaths record))
              records dailyData in
  NoDup (map fst result) /\
  forall d,
    daily_lookup d result =
    match records_of_date d records with
    | [] => daily_lookup d dailyData
    | g => let '(cs, ds) := default ([], []) (daily_lookup d dailyData) in
           Some (cs ++ map Raw.cases g, ds ++ map Raw.deaths g)
    end.
Proof.
  revert dailyData. induction records as [|r records IH]; intros dailyData Hnd; cbn [fold_left].
  - split; [assumption|reflexivity].
  - destruct (daily_add_keys dailyData (Raw.dateRep r) (Raw.cases r) (Raw.deaths r) Hnd)
      as [Hnd' _].
    destruct (IH _ Hnd') as [IH1 IH2]. split; [exact IH1|]. intros d.
    cbv zeta in IH2. rewrite IH2. unfold records_of_date. cbn [List.filter].
    rewrite daily_add_lookup.
    destruct (String.eqb_spec (Raw.dateRep r) d) as [Heq|Hne]; [subst d|].
    + destruct (List.filter (fun r0 => String.eqb (Raw.dateRep r0) (Raw.dateRep r)) records)
        as [|r' g];
        destruct (daily_lookup (Raw.dateRep r) dailyData) as [[cs ds]|];
        cbn [default from_option id map app]; rewrite <- ?app_assoc; reflexivity.
    + reflexivity.
Qed.

Lemma daily_lookup_not_in (d : string) (dailyData : DailyData) :
  ~ In d (map fst dailyData) -> daily_lookup d dailyData = None.
Proof.
  unfold daily_lookup. induction dailyData as [|[k arrays] rest IH]; cbn; [reflexivity|].
  intros Hn. destruct (String.eqb_spec k d) as [->|Hne]; [tauto|]. apply IH. tauto.
Qed.

Lemma backfill_date_map (rows : list Row) (k : string) (arrays : list Z * list Z) :
  backfill_date rows (k, arrays) =
  map (fun data => if String.eqb (date data) k then with_stats arrays data else data) rows.
Proof. destruct arrays as [cs ds]. reflexivity. Qed.

Lemma fold_backfill_date (dailyData : DailyData) (rows : list Row) :
  NoDup (map fst dailyData) ->
  fold_left backfill_date dailyData rows =
  map (fun data => match daily_lookup (date data) dailyData with
                   | Some arrays => with_stats arrays data
                   | None => data
                   end) rows.
Proof.
  revert rows. induction dailyData as [|[k arrays] rest IH]; intros rows Hnd.
  - cbn. rewrite map_id. reflexivity.
  - cbn [fold_left]. apply NoDup_cons in Hnd as Hnd'. destruct Hnd' as [Hnotin Hrest].
    rewrite IH by assumption. rewrite backfill_date_map, map_map.
    apply map_ext. intros data. unfold daily_lookup at 2. cbn [List.find fst snd].
    destruct (String.eqb_spec k (date data)) as [->|Hne].
    + rewrite String.eqb_refl. cbn [with_stats date fmap option_fmap option_map snd].
      rewrite daily_lookup_not_in; [reflexivity|].
      rewrite <- list_elem_of_In. exact Hnotin.
    + destruct (String.eqb_spec (date data) k); [congruence|]. reflexivity.
Qed.

(** ** fetchData: the rows it leaves in [allData] *)

Lemma build_dailyData_lookup (records : list Raw.t) (r : Raw.t) :
  In r records ->
  NoDup (map fst (build_dailyData records)) /\
  daily_lookup (Raw.dateRep r) (build_dailyData records) =
  Some (map Raw.cases (records_of_date (Raw.dateRep r) records),
        map Raw.deaths (records_of_date (Raw.dateRep r) records)).
Proof.
  intros Hin.
  destruct (build_dailyData_spec records [] (NoDup_nil_2 : NoDup (map fst ([] : DailyData))))
    as [Hnd Hlook].
  cbv zeta in Hnd, Hlook. fold (build_dailyData records) in Hnd, Hlook.
  split; [exact Hnd|]. rewrite Hlook.
  assert (Hg : In r (records_of_date (Raw.dateRep r) records)).
  { unfold records_of_date. apply filter_In. split; [assumption|apply String.eqb_refl]. }
  destruct (records_of_date (Raw.dateRep r) records) as [|r' g]; [destruct Hg|].
  reflexivity.
Qed.

Lemma fetchData_rows (records : list Raw.t) :
  fetchData [] records =
  Normal (map (final_row records) records, aggregateDataByDate records).
Proof.
  unfold fetchData. rewrite forEach_record_Normal. cbn [mbind Completion_bind].
  unfold backfill_totals. cbn [allData totalCases_by_country totalDeaths_by_country app].
  destruct records as [|r0 records0] eqn:E; [reflexivity|]. rewrite <- E.
  assert (Hin0 : In r0 records) by (rewrite E; left; reflexivity).
  destruct (build_dailyData_lookup records r0 Hin0) as [Hnd _].
  rewrite fold_backfill_date by exact Hnd.
  rewrite !map_map. do 2 f_equal.
  apply map_ext_in. intros r Hin. cbn [date new_row].
  destruct (build_dailyData_lookup records r Hin) as [_ ->].
  reflexivity.
Qed.




Lemma lookup_total_accumulate_all (key : Raw.t -> string) (f : Raw.t -> Z)
    (records : list Raw.t) (r : Raw.t) :
  In r records ->
  lookup_total (accumulate_all key f records ∅) (key r) =
  JNum (Num.of_Z (sum_Z (map f (List.filter (fun r' => String.eqb (key r') (key r)) records)))).
Proof.
  intros Hin. unfold lookup_total. rewrite accumulate_all_lookup.
  assert (Hg : In r (List.filter (fun r' => String.eqb (key r') (key r)) records)).
  { apply filter_In. split; [assumption|apply String.eqb_refl]. }
  destruct (List.filter _ records) as [|r' g]; [destruct Hg|].
  rewrite lookup_empty. cbn [default from_option id]. rewrite Z.add_0_l. reflexivity.
Qed.



(** ** The date clause *)

Lemma isDateValid_true (entry : Row) (startDate endDate : option JsDate.t) :
  isDateValid entry startDate endDate = true <->
  exists e, JsDate.parse (date entry) = Some e /\
    (startDate = None \/ startDate = Some None \/ exists s, startDate = Some (Some s) /\ s <= e) /\
    (endDate = None \/ endDate = Some None \/ exists f, endDate = Some (Some f) /\ e <= f).
Proof.
  unfold isDateValid. destruct (JsDate.parse (date entry)) as [e|].
  - rewrite andb_true_iff. split.
    + intros [Hs He]. exists e. split; [reflexivity|]. split.
      * destruct startDate as [[s|]|]; auto. right; right. exists s. split; [reflexivity|lia].
      * destruct endDate as [[f|]|]; auto. right; right. exists f. split; [reflexivity|lia].
    + intros (e' & [= <-] & Hs & He). split.
      * destruct Hs as [->|[->|(s & -> & Hs)]]; try reflexivity. lia.
      * destruct He as [->|[->|(f & -> & He)]]; try reflexivity. lia.
  - split; [discriminate|]. intros (e & He & _). discriminate.
Qed.

Lemma isDateValid_unparsed (entry : Row) (startDate endDate : option JsDate.t) :
  JsDate.parse (date entry) = None -> isDateValid entry startDate endDate = false.
Proof. unfold isDateValid. intros ->. reflexivity. Qed.

(** C2 (the code departs from it): the date clause hands the row's
    day/month/year string to [new Date] as it is, and the parser reads a
    slash-separated date month first.  25/12/2020 is not a date for it, so
    the row is excluded with no bound set; 05/03/2020 is read as the 3rd of
    May: the row fails a range that is the whole of March and passes one that
    is the whole of May.  [JsDate.of_dateRep], the reading [fetchData] uses
    for the minimal and maximal dates, takes both strings day first. *)
Theorem isDateValid_reads_month_first :
  let day (y m d : Z) : JsDate.t := JsDate.TimeClip (JsDate.MakeDay y (m - 1) d * JsDate.msPerDay) in
  let christmas := sample_row "X" "25/12/2020" 1 JUndefined in
  let march5 := sample_row "X" "05/03/2020" 1 JUndefined in
  JsDate.of_dateRep "25/12/2020" = day 2020 12 25 /\
  JsDate.parse "25/12/2020" = None /\
  isDateValid christmas None None = false /\
  JsDate.of_dateRep "05/03/2020" = day 2020 3 5 /\
  JsDate.parse "05/03/2020" = day 2020 5 3 /\
  isDateValid march5 (Some (day 2020 3 1)) (Some (day 2020 3 31)) = false /\
  isDateValid march5 (Some (day 2020 5 1)) (Some (day 2020 5 31)) = true.
Proof. vm_compute. repeat split; reflexivity. Qed.

(** ** Pagination *)

Lemma Array_slice_lookup {A : Type} (l : list A) (start end_ : Z) (i : nat) :
  0 <= start -> start <= end_ ->
  Array_slice l start end_ !! i =
  if decide (Z.of_nat i < end_ - start) then l !! (Z.to_nat start + i)%nat else None.
Proof.
  intros Hs He. unfold Array_slice.
  destruct (Z.ltb_spec start 0) as [?|_]; [lia|].
  destruct (Z.ltb_spec end_ 0) as [?|_]; [lia|].
  set (len := Z.of_nat (length l)).
  rewrite lookup_take. case_decide as Hi.
  - rewrite lookup_drop. case_decide as Hj.
    + f_equal. lia.
    + rewrite lookup_ge_None_2; [reflexivity|]. lia.
  - case_decide as Hj; [|reflexivity].
    symmetry. apply lookup_ge_None_2. lia.
Qed.

Lemma Array_slice_length {A : Type} (l : list A) (start end_ : Z) :
  0 <= start -> start <= end_ ->
  Z.of_nat (length (Array_slice l start end_)) =
  Z.min end_ (Z.of_nat (length l)) - Z.min start (Z.of_nat (length l)).
Proof.
  intros Hs He. unfold Array_slice.
  destruct (Z.ltb_spec start 0) as [?|_]; [lia|].
  destruct (Z.ltb_spec end_ 0) as [?|_]; [lia|].
  rewrite length_take, length_drop. lia.
Qed.

Lemma totalPages_ceiling (rows : list Row) (itemsPerPage : Z) :
  0 < itemsPerPage ->
  exists k, totalPages rows itemsPerPage = Num.of_Z k /\
            (k - 1) * itemsPerPage < Z.of_nat (length rows) <= k * itemsPerPage.
Proof.
  intros Hn. unfold totalPages.
  destruct (Z.eqb_spec itemsPerPage 0) as [?|_]; [lia|].
  cbv zeta. destruct (Z.ltb_spec itemsPerPage 0) as [?|_]; [lia|].
  rewrite andb_false_r.
  eexists; split; [reflexivity|].
  set (len := Z.of_nat (length rows)).
  pose proof (Z.div_mod (- len) itemsPerPage ltac:(lia)) as Hdm.
  pose proof (Z.mod_pos_bound (- len) itemsPerPage Hn) as Hmod.
  nia.
Qed.

(** C8: for every list of filtered rows (sorted into
    [sortedFilteredData], of the same length), every [itemsPerPage > 0] and
    every 1-indexed [currentPage], the table body is exactly the slice
    [(currentPage-1)*itemsPerPage, currentPage*itemsPerPage) of the sorted
    rows, and [totalPages] is the ceiling of the row count over
    [itemsPerPage]; with 23 rows and 10 per page there are 3 pages, page 3
    holds exactly 3 rows and page 4 is empty. *)
Theorem pagination_slice
    (filteredData sortedFilteredData : list Row) (itemsPerPage currentPage : Z) :
  length sortedFilteredData = length filteredData ->
  0 < itemsPerPage -> 1 <= currentPage ->
  (forall i : nat,
     pageRows sortedFilteredData currentPage itemsPerPage !! i =
     if decide (Z.of_nat i < itemsPerPage)
     then sortedFilteredData !! (Z.to_nat ((currentPage - 1) * itemsPerPage) + i)%nat
     else None) /\
  (exists k, totalPages filteredData itemsPerPage = Num.of_Z k /\
             (k - 1) * itemsPerPage < Z.of_nat (length filteredData) <= k * itemsPerPage) /\
  (length filteredData = 23%nat ->
     totalPages filteredData 10 = Num.of_Z 3 /\
     length (pageRows sortedFilteredData 3 10) = 3%nat /\
     pageRows sortedFilteredData 4 10 = []).
Proof.
  intros Hsame Hn Hp. split; [|split].
  - intros i. unfold pageRows. rewrite Array_slice_lookup by nia.
    replace (currentPage * itemsPerPage - (currentPage - 1) * itemsPerPage)
      with itemsPerPage by lia.
    reflexivity.
  - apply totalPages_ceiling. assumption.
  - intros Hlen. split; [|split].
    + unfold totalPages. rewrite Hlen. reflexivity.
    + apply Nat2Z.inj. unfold pageRows. rewrite Array_slice_length by lia.
      rewrite Hsame, Hlen. reflexivity.
    + apply length_zero_iff_nil. apply Nat2Z.inj. unfold pageRows.
      rewrite Array_slice_length by lia. rewrite Hsame, Hlen. reflexivity.
Qed.

Lemma pagination_slice_witness :
  let rows := repeat (sample_row "X" "05/03/2020" 1 JUndefined) 23 in
  totalPages rows 10 = Num.of_Z 3 /\
  length (pageRows rows 3 10) = 3%nat /\
  pageRows rows 4 10 = [].
Proof.
  intros rows.
  apply (pagination_slice rows rows 10 3); [reflexivity | lia | lia | reflexivity].
Defined.

(** ** Signs of differences *)

Lemma binary_round_aux_opp (sx : bool) (mx ex : Z) (lx : location) :
  binary_round_aux Num.prec Num.emax (negb sx) mx ex lx =
  SFopp (binary_round_aux Num.prec Num.emax sx mx ex lx).
Proof.
  unfold binary_round_aux.
  destruct (shr_fexp _ _ mx ex lx) as [mrs' e'].
  destruct (shr_fexp _ _ _ e' loc_Exact) as [mrs'' e''].
  destruct (shr_m mrs''); [reflexivity| |reflexivity].
  destruct (Z.leb _ _); reflexivity.
Qed.

Lemma binary_round_opp (sx : bool) (m : positive) (e : Z) :
  binary_round Num.prec Num.emax (negb sx) m e =
  SFopp (binary_round Num.prec Num.emax sx m e).
Proof.
  unfold binary_round. destruct (shl_align _ _ _) as [mz ez]. apply binary_round_aux_opp.
Qed.

Lemma gt0_opp (v : float64) : Num.gt0 (SFopp v) = Num.lt0 v.
Proof. destruct v as [[]|[]| |[] m e]; reflexivity. Qed.

Lemma lt0_opp (v : float64) : Num.lt0 (SFopp v) = Num.gt0 v.
Proof. destruct v as [[]|[]| |[] m e]; reflexivity. Qed.

Lemma gt0_not_lt0 (v : float64) : Num.gt0 v = true -> Num.lt0 v = false.
Proof. destruct v as [[]|[]| |[] m e]; cbn; congruence. Qed.

Lemma binary_normalize_opp (d e : Z) :
  Num.gt0 (binary_normalize Num.prec Num.emax (- d) e false) =
  Num.lt0 (binary_normalize Num.prec Num.emax d e false).
Proof.
  destruct d as [|p|p].
  - reflexivity.
  - change (- Z.pos p) with (Z.neg p). cbn [binary_normalize].
    change true with (negb false). rewrite binary_round_opp. apply gt0_opp.
  - change (- Z.neg p) with (Z.pos p). cbn [binary_normalize].
    change true with (negb false). rewrite binary_round_opp. symmetry. apply lt0_opp.
Qed.

Lemma gt0_sub_swap (x y : float64) : Num.gt0 (Num.sub y x) = Num.lt0 (Num.sub x y).
Proof.
  destruct x as [sx|sx| |sx mx ex], y as [sy|sy| |sy my ey];
    try (destruct sx; destruct sy; reflexivity);
    try (destruct sx; reflexivity); try (destruct sy; reflexivity); try reflexivity.
  unfold Num.sub, SFsub. rewrite (Z.min_comm ey ex).
  rewrite <- binary_normalize_opp. f_equal. f_equal. lia.
Qed.

(** ** The insertion sort *)

Section InsertionSort.
Context {A : Type} (after : A -> A -> bool).

(** [a] may stand immediately before [b]. *)
Let before (a b : A) : Prop := after a b = false.
(** [a] sorts strictly before [b]. *)
Let lt (a b : A) : Prop := after b a = true.

Lemma insert_by_In (x z : A) (l : list A) :
  In z (insert_by after x l) <-> z = x \/ In z l.
Proof.
  induction l as [|y rest IH]; cbn [insert_by].
  - cbn. intuition.
  - destruct (after x y); cbn [In]; [rewrite IH|]; intuition.
Qed.

Lemma isort_In (z : A) (l : list A) : In z (isort after l) <-> In z l.
Proof.
  induction l as [|x rest IH]; cbn [isort]; [reflexivity|].
  rewrite insert_by_In, IH. cbn. intuition.
Qed.

Lemma insert_by_Permutation (x : A) (l : list A) :
  Permutation (insert_by after x l) (x :: l).
Proof.
  induction l as [|y rest IH]; cbn [insert_by]; [reflexivity|].
  destruct (after x y); [|reflexivity].
  rewrite IH. apply perm_swap.
Qed.

Lemma isort_Permutation (l : list A) : Permutation (isort after l) l.
Proof.
  induction l as [|x rest IH]; cbn [isort]; [reflexivity|].
  rewrite insert_by_Permutation, IH. reflexivity.
Qed.

Lemma isort_sorted_id (l : list A) : Sorted before l -> isort after l = l.
Proof.
  induction 1 as [|x l Hs IH Hhd]; cbn [isort]; [reflexivity|].
  rewrite IH. destruct Hhd as [|y l Hxy]; cbn [insert_by]; [reflexivity|].
  unfold before in Hxy. rewrite Hxy. reflexivity.
Qed.



Hypothesis after_asym : forall a b, after a b = true -> after b a = false.

Lemma insert_by_Sorted (x : A) (l : list A) :
  Sorted before l -> Sorted before (insert_by after x l).
Proof.
  induction 1 as [|y l Hs IH Hhd]; cbn [insert_by].
  - repeat constructor.
  - destruct (after x y) eqn:Exy.
    + constructor; [exact IH|].
      destruct Hhd as [|z l Hyz]; cbn [insert_by].
      * constructor. apply after_asym. exact Exy.
      * destruct (after x z); constructor;
          [exact Hyz | apply after_asym; exact Exy].
    + constructor; [constructor; assumption|]. constructor. exact Exy.
Qed.

Lemma isort_Sorted (l : list A) : Sorted before (isort after l).
Proof.
  induction l as [|x rest IH]; cbn [isort]; [constructor|].
  apply insert_by_Sorted. exact IH.
Qed.

Lemma isort_idempotent (l : list A) : isort after (isort after l) = isort after l.
Proof. apply isort_sorted_id, isort_Sorted. Qed.




End InsertionSort.

(** [Array_sort] with a comparator that never throws. *)
Lemma sort_insert_total {A : Type} (comparefn : A -> A -> Completion float64)
    (value : A -> A -> float64) (x : A) (l : list A) :
  (forall a b, comparefn a b = Normal (value a b)) ->
  sort_insert comparefn x l = Normal (insert_by (fun a b => Num.gt0 (value a b)) x l).
Proof.
  intros Hv. induction l as [|y rest IH]; cbn [sort_insert insert_by]; [reflexivity|].
  rewrite Hv. cbn [mbind Completion_bind]. destruct (Num.gt0 (value x y)); [|reflexivity].
  rewrite IH. reflexivity.
Qed.

Lemma Array_sort_total {A : Type} (comparefn : A -> A -> Completion float64)
    (value : A -> A -> float64) (l : list A) :
  (forall a b, comparefn a b = Normal (value a b)) ->
  Array_sort comparefn l = Normal (isort (fun a b => Num.gt0 (value a b)) l).
Proof.
  intros Hv. induction l as [|x rest IH]; cbn [Array_sort isort]; [reflexivity|].
  rewrite IH. cbn [mbind Completion_bind]. apply sort_insert_total. exact Hv.
Qed.

(** ** The comparator of [sortData] *)

Lemma to_numeric_not_nan (v : JsVal) : Num.is_nan (to_numeric v) = false.
Proof.
  unfold to_numeric. destruct (isNaN v) eqn:E; [|exact E].
  destruct (ToBoolean (JNum (parseFloat v))) eqn:Eb; [|reflexivity].
  cbn [ToBoolean] in Eb. apply negb_true_iff, orb_false_iff in Eb. apply Eb.
Qed.

Lemma numeric_column_not_country (column : string) :
  is_numeric_column column = true -> String.eqb column "country" = false.
Proof.
  unfold is_numeric_column, numeric_columns. cbn [existsb]. intros H.
  repeat (apply orb_true_iff in H as [H|H]; [apply String.eqb_eq in H; subst; reflexivity|]).
  discriminate H.
Qed.

Lemma switch_value_country (a : Row) : switch_value "country" a = JStr (country a).
Proof.
  unfold switch_value, row_get, or_empty. cbn [String.eqb Ascii.eqb Bool.eqb ToBoolean].
  destruct (String.eqb_spec (country a) "") as [->|]; reflexivity.
Qed.

Lemma switch_value_numeric (column : string) (a : Row) :
  is_numeric_column column = true ->
  switch_value column a = JNum (to_numeric (row_get column a)).
Proof.
  intros H. unfold switch_value. rewrite (numeric_column_not_country column H), H. reflexivity.
Qed.

Section Comparator.
Context {C : Collator}.

Lemma compareFn_strings (column direction : string) (a b : Row) (sa sb : string) :
  switch_value column a = JStr sa -> switch_value column b = JStr sb ->
  compareFn column direction a b =
  Normal (let comparison :=
            if isNaN (JStr sa) || isNaN (JStr sb)
            then comparison_number (localeCompare sa sb)
            else Num.sub (Str.StringToNumber sa) (Str.StringToNumber sb) in
          if String.eqb direction "asc" then comparison else Num.neg comparison).
Proof.
  intros Ha Hb. unfold compareFn. rewrite Ha, Hb.
  destruct (isNaN (JStr sa) || isNaN (JStr sb)); reflexivity.
Qed.

Lemma compareFn_numbers (column direction : string) (a b : Row) (x y : float64) :
  switch_value column a = JNum x -> switch_value column b = JNum y ->
  Num.is_nan x = false -> Num.is_nan y = false ->
  compareFn column direction a b =
  Normal (if String.eqb direction "asc" then Num.sub x y else Num.neg (Num.sub x y)).
Proof.
  intros Ha Hb Hx Hy. unfold compareFn. rewrite Ha, Hb.
  unfold isNaN. cbn [ToNumber]. rewrite Hx, Hy. reflexivity.
Qed.

(** The comparator never throws on rows: every column compares two
    strings or two numbers that are not NaN. *)
Lemma compareFn_Normal (column direction : string) (a b : Row) :
  compareFn column direction a b = Normal (compare_value column direction a b).
Proof.
  unfold compare_value.
  destruct (String.eqb_spec column "country") as [->|Hc].
  - rewrite (compareFn_strings _ _ _ _ _ _ (switch_value_country a) (switch_value_country b)).
    reflexivity.
  - destruct (is_numeric_column column) eqn:En.
    + rewrite (compareFn_numbers _ _ _ _ _ _
                 (switch_value_numeric _ a En) (switch_value_numeric _ b En)
                 (to_numeric_not_nan _) (to_numeric_not_nan _)).
      reflexivity.
    + assert (Hs : forall r, switch_value column r =
                             JStr (ToString (or_empty (row_get column r)))).
      { intros r. unfold switch_value.
        destruct (String.eqb_spec column "country"); [contradiction|].
        rewrite En. reflexivity. }
      rewrite (compareFn_strings _ _ _ _ _ _ (Hs a) (Hs b)). reflexivity.
Qed.

Lemma sorts_after_value (column direction : string) (a b : Row) :
  sorts_after column direction a b = Num.gt0 (compare_value column direction a b).
Proof. unfold sorts_after. rewrite compareFn_Normal. reflexivity. Qed.

Lemma sortedRows_isort (column direction : string) (rows : list Row) :
  sortedRows column direction rows = Normal (isort (sorts_after column direction) rows).
Proof.
  unfold sortedRows.
  rewrite (Array_sort_total _ (compare_value column direction)) by apply compareFn_Normal.
  f_equal. clear. induction rows as [|x rest IH]; cbn [isort]; [reflexivity|].
  rewrite IH. generalize (isort (sorts_after column direction) rest). intros l.
  induction l as [|y l IHl]; cbn [insert_by]; [reflexivity|].
  rewrite sorts_after_value, IHl. reflexivity.
Qed.

(** C9 (as amended): on a numeric-typed column a raw value that does
    not read as a number is replaced by its [parseFloat] or by 0, so the
    compared values are never NaN and the comparator is the numeric
    difference, negated for a direction other than 'asc'; the string
    comparison is never reached on these columns. *)
Theorem numeric_columns_compare_numerically
    (column direction : string) (a b : Row) :
  is_numeric_column column = true ->
  let valueA := to_numeric (row_get column a) in
  let valueB := to_numeric (row_get column b) in
  switch_value column a = JNum valueA /\
  switch_value column b = JNum valueB /\
  isNaN (JNum valueA) || isNaN (JNum valueB) = false /\
  compareFn column direction a b =
    Normal (if String.eqb direction "asc" then Num.sub valueA valueB
            else Num.neg (Num.sub valueA valueB)).
Proof.
  intros Hn valueA valueB.
  pose proof (switch_value_numeric column a Hn) as Ha.
  pose proof (switch_value_numeric column b Hn) as Hb.
  pose proof (to_numeric_not_nan (row_get column a)) as Hx.
  pose proof (to_numeric_not_nan (row_get column b)) as Hy.
  split; [exact Ha|]. split; [exact Hb|]. split.
  - unfold isNaN. cbn [ToNumber]. fold valueA valueB. subst valueA valueB.
    rewrite Hx, Hy. reflexivity.
  - apply compareFn_numbers; assumption.
Qed.
End Comparator.

Lemma numeric_columns_compare_numerically_witness :
  @compareFn codeunit_collator "maxCases" "asc" row_abc row_abd = Normal Num.zero.
Proof.
  destruct (@numeric_columns_compare_numerically codeunit_collator
              "maxCases" "asc" row_abc row_abd eq_refl) as (_ & _ & _ & H).
  exact H.
Defined.

(** The pair of rows the claim's fallback would order by their strings:
    both raw values fail to read as numbers, both are compared as 0, and the
    comparator returns 0 where the string comparison returns -1. *)
Lemma non_numeric_values_compare_as_zero :
  isNaN (row_get "maxCases" row_abc) = true /\
  isNaN (row_get "maxCases" row_abd) = true /\
  switch_value "maxCases" row_abc = JNum Num.zero /\
  switch_value "maxCases" row_abd = JNum Num.zero /\
  @compareFn codeunit_collator "maxCases" "asc" row_abc row_abd = Normal Num.zero /\
  @call_localeCompare codeunit_collator (row_get "maxCases" row_abc) (row_get "maxCases" row_abd)
    = Normal (Num.of_Z (-1)).
Proof. vm_compute. repeat split; reflexivity. Qed.

(** ** Sorting by country *)

Lemma gt0_comparison_number (c : comparison) :
  Num.gt0 (comparison_number c) = match c with Gt => true | _ => false end.
Proof. destruct c; reflexivity. Qed.

Lemma lt0_comparison_number (c : comparison) :
  Num.lt0 (comparison_number c) = match c with Lt => true | _ => false end.
Proof. destruct c; reflexivity. Qed.

Section CountrySort.
Context {C : Collator} {HC : ConsistentCollator C}.

Lemma compare_value_country (direction : string) (a b : Row) :
  compare_value "country" direction a b =
  let comparison :=
    if isNaN (JStr (country a)) || isNaN (JStr (country b))
    then comparison_number (localeCompare (country a) (country b))
    else Num.sub (Str.StringToNumber (country a)) (Str.StringToNumber (country b)) in
  if String.eqb direction "asc" then comparison else Num.neg comparison.
Proof.
  unfold compare_value.
  rewrite (compareFn_strings _ _ _ _ _ _ (switch_value_country a) (switch_value_country b)).
  reflexivity.
Qed.









End CountrySort.

(** The collation by code units is consistent. *)
Lemma ascii_compare_refl (c : ascii) : Ascii.compare c c = Eq.
Proof. unfold Ascii.compare. apply N.compare_refl. Qed.

Lemma string_compare_trans (a b c : string) :
  String.compare a b <> Gt -> String.compare b c <> Gt -> String.compare a c <> Gt.
Proof.
  revert b c. induction a as [|x a IH]; intros [|y b] [|z c]; cbn [String.compare];
    try congruence.
  destruct (Ascii.compare x y) eqn:Exy; destruct (Ascii.compare y z) eqn:Eyz;
    intros H1 H2; try congruence.
  - apply Ascii.compare_eq_iff in Exy, Eyz. subst. rewrite ascii_compare_refl.
    eapply IH; eassumption.
  - apply Ascii.compare_eq_iff in Exy. subst. rewrite Eyz. discriminate.
  - apply Ascii.compare_eq_iff in Eyz. subst. rewrite Exy. discriminate.
  - unfold Ascii.compare in *. rewrite N.compare_lt_iff in Exy, Eyz.
    assert (H : (N_of_ascii x ?= N_of_ascii z)%N = Lt) by (apply N.compare_lt_iff; lia).
    rewrite H. discriminate.
Qed.

Lemma codeunit_collator_consistent : ConsistentCollator codeunit_collator.
Proof.
  split.
  - intros a b. apply String.compare_antisym.
  - intros a b c. apply string_compare_trans.
Qed.



(** Rows whose countries do not read as numbers and no two of which
    collate equal are strictly and totally ordered by the comparator. *)
Lemma strictly_ordered_non_numeric {C : Collator} {HC : ConsistentCollator C}
    (rows : list Row) :
  Forall (fun r => isNaN (JStr (country r)) = true) rows ->
  ForallOrdPairs (fun a b => localeCompare (country a) (country b) <> Eq) rows ->
  strictly_ordered "country" "asc" rows = true.
Proof.
  intros Hnan Hne.
  assert (Hafter : forall a b, In a rows ->
            sorts_after "country" "asc" a b =
            match localeCompare (country a) (country b) with Gt => true | _ => false end).
  { intros a b Ha. rewrite sorts_after_value, compare_value_country. cbv zeta.
    rewrite Forall_forall in Hnan. rewrite (Hnan a) by (apply list_elem_of_In; exact Ha).
    cbn [orb String.eqb Ascii.eqb Bool.eqb]. apply gt0_comparison_number. }
  unfold strictly_ordered. apply andb_true_iff. split.
  - clear Hnan. induction Hne as [|a rest Ha Hrest IH]; [reflexivity|].
    cbn [no_ties]. apply andb_true_iff. split.
    + apply forallb_forall. intros b Hb. rewrite Forall_forall in Ha.
      rewrite !Hafter by (cbn; auto).
      specialize (Ha b (proj2 (list_elem_of_In _ _) Hb)).
      rewrite (localeCompare_antisym (country a) (country b)).
      destruct (localeCompare (country a) (country b)); cbn; congruence.
    + apply IH. intros x y Hx. apply Hafter. right. exact Hx.
  - unfold transitive_on. apply forallb_forall. intros a Ha.
    apply forallb_forall. intros b Hb. apply forallb_forall. intros c Hc.
    rewrite !Hafter by assumption.
    destruct (localeCompare (country a) (country b)) eqn:Eab; try reflexivity.
    destruct (localeCompare (country b) (country c)) eqn:Ebc; try reflexivity.
    destruct (localeCompare (country a) (country c)) eqn:Eac; try reflexivity; exfalso.
    + apply (localeCompare_trans (country a) (country c) (country b)); try congruence.
      rewrite (localeCompare_antisym (country b) (country c)), Ebc. discriminate.
    + apply (localeCompare_trans (country a) (country c) (country b)); try congruence.
      rewrite (localeCompare_antisym (country b) (country c)), Ebc. discriminate.
Qed.

(** ** [sortData] and the store *)

Section Store.
Context {C : Collator}.

(** C10: for every array of rows, column and direction, [sortData]
    returns a newly allocated array and leaves its argument as it was: the
    reference it returns was not in the store before the call and differs
    from the argument's, every array of the store before the call (the
    argument among them) holds the same rows in the same order after it,
    and the new array holds the sorted rows, a permutation of the input. *)
Theorem sortData_leaves_input
    (h : Heap) (data : positive) (rows : list Row) (column direction : string) :
  h !! data = Some rows ->
  exists (sortedData : positive) (sorted : list Row) (h' : Heap),
    sortData data column direction h = Normal (sortedData, h') /\
    h !! sortedData = None /\
    sortedData <> data /\
    h' !! data = Some rows /\
    (forall l, l <> sortedData -> h' !! l = h !! l) /\
    h' !! sortedData = Some sorted /\
    sortedRows column direction rows = Normal sorted /\
    Permutation sorted rows.
Proof.
  unfold Heap in *. intros Hdata.
  set (sortedData := fresh (dom h)).
  assert (Hfresh : h !! sortedData = None).
  { apply not_elem_of_dom. apply is_fresh. }
  assert (Hne : sortedData <> data) by congruence.
  exists sortedData, (isort (sorts_after column direction) rows),
    (<[sortedData := isort (sorts_after column direction) rows]> (<[sortedData := rows]> h)).
  split; [|split; [|split; [|split; [|split; [|split; [|split]]]]]].
  - unfold sortData. unfold Heap. rewrite Hdata. fold sortedData.
    fold (sortedRows column direction rows). rewrite sortedRows_isort. reflexivity.
  - exact Hfresh.
  - exact Hne.
  - rewrite !lookup_insert_ne by exact Hne. exact Hdata.
  - intros l Hl. rewrite !lookup_insert_ne by congruence. reflexivity.
  - apply lookup_insert_eq.
  - apply sortedRows_isort.
  - apply isort_Permutation.
Qed.
End Store.

Lemma sortData_leaves_input_witness :
  exists (sortedData : positive) (sorted : list Row) (h' : Heap),
    @sortData codeunit_collator 1%positive "country" "asc" {[ 1%positive := sample_rows ]}
      = Normal (sortedData, h') /\
    sortedData <> 1%positive /\
    h' !! 1%positive = Some sample_rows /\
    h' !! sortedData = Some sorted /\
    map country sorted = ["a"; "b"; "c"]%string.
Proof.
  destruct (@sortData_leaves_input codeunit_collator {[ 1%positive := sample_rows ]}
              1%positive sample_rows "country" "asc" (lookup_singleton_eq _ _))
    as (sortedData & sorted & h' & Hrun & _ & Hne & Hdata & _ & Hnew & Hrows & _).
  exists sortedData, sorted, h'. repeat split; try assumption.
  vm_compute in Hrows. injection Hrows as <-. reflexivity.
Defined.

(** ** Rounding never loses a number's sign *)

Lemma shr_1_m (r : shr_record) : 0 <= shr_m r -> shr_m (shr_1 r) = shr_m r / 2.
Proof.
  destruct r as [m r s]. cbn [shr_m]. intros Hm.
  destruct m as [|[p|p|]|p]; cbn [shr_1 shr_m]; try lia.
  - reflexivity.
  - change (Z.pos p~1) with (2 * Z.pos p + 1). apply (Z.div_unique_pos _ _ _ 1); lia.
  - change (Z.pos p~0) with (2 * Z.pos p). apply (Z.div_unique_pos _ _ _ 0); lia.
  - reflexivity.
Qed.

Lemma iter_pos_shr_1_m (n : positive) (r : shr_record) :
  0 <= shr_m r -> shr_m (SpecFloat.iter_pos shr_1 n r) = shr_m r / 2 ^ Z.pos n.
Proof.
  revert r. induction n as [n IH|n IH|]; intros r Hr; cbn [SpecFloat.iter_pos].
  - assert (H1 : 0 <= shr_m (shr_1 r)) by (rewrite shr_1_m by assumption; apply Z.div_pos; lia).
    assert (H2 : 0 <= shr_m (SpecFloat.iter_pos shr_1 n (shr_1 r))).
    { rewrite IH by assumption. apply Z.div_pos; lia. }
    rewrite IH, IH, shr_1_m by assumption.
    rewrite !Z.div_div by lia. f_equal.
    replace (Z.pos n~1) with (1 + Z.pos n + Z.pos n) by lia.
    rewrite !Z.pow_add_r by lia. lia.
  - assert (H2 : 0 <= shr_m (SpecFloat.iter_pos shr_1 n r)).
    { rewrite IH by assumption. apply Z.div_pos; lia. }
    rewrite IH, IH by assumption.
    rewrite !Z.div_div by lia. f_equal.
    replace (Z.pos n~0) with (Z.pos n + Z.pos n) by lia.
    rewrite !Z.pow_add_r by lia. lia.
  - rewrite shr_1_m by assumption. reflexivity.
Qed.

Lemma digits2_pos_le (p : positive) : 2 ^ (Z.pos (digits2_pos p) - 1) <= Z.pos p.
Proof.
  induction p as [p IH|p IH|]; cbn [digits2_pos].
  - rewrite Pos2Z.inj_succ. change (Z.pos p~1) with (2 * Z.pos p + 1).
    replace (Z.succ (Z.pos (digits2_pos p)) - 1) with (Z.succ (Z.pos (digits2_pos p) - 1)) by lia.
    rewrite Z.pow_succ_r by lia. lia.
  - rewrite Pos2Z.inj_succ. change (Z.pos p~0) with (2 * Z.pos p).
    replace (Z.succ (Z.pos (digits2_pos p)) - 1) with (Z.succ (Z.pos (digits2_pos p) - 1)) by lia.
    rewrite Z.pow_succ_r by lia. lia.
  - reflexivity.
Qed.

(** A positive mantissa shifted by fewer places than it has digits stays
    positive. *)
Lemma shr_positive (m : positive) (l : location) (e n : Z) :
  n < Z.pos (digits2_pos m) ->
  exists r e', shr (shr_record_of_loc (Z.pos m) l) e n = (r, e') /\ 0 < shr_m r /\ e <= e'.
Proof.
  intros Hn.
  assert (Hm : shr_m (shr_record_of_loc (Z.pos m) l) = Z.pos m) by (destruct l as [|[]]; reflexivity).
  destruct n as [|n|n]; cbn [shr].
  - eexists _, _; split; [reflexivity|]. rewrite Hm. lia.
  - eexists _, _; split; [reflexivity|]. split; [|lia].
    rewrite iter_pos_shr_1_m by (rewrite Hm; lia). rewrite Hm.
    apply Z.div_str_pos. split; [lia|].
    pose proof (digits2_pos_le m) as Hd.
    assert (2 ^ Z.pos n <= 2 ^ (Z.pos (digits2_pos m) - 1)) by (apply Z.pow_le_mono_r; lia).
    lia.
  - eexists _, _; split; [reflexivity|]. rewrite Hm. lia.
Qed.

Lemma shr_fexp_positive (m : positive) (l : location) (e : Z) :
  -1074 <= e ->
  exists r e', shr_fexp Num.prec Num.emax (Z.pos m) e l = (r, e') /\ 0 < shr_m r /\ e <= e'.
Proof.
  intros He. unfold shr_fexp. apply shr_positive.
  unfold fexp, emin, Num.prec, Num.emax. cbn [Zdigits2]. lia.
Qed.

Lemma binary_round_aux_sign (sx : bool) (m : positive) (e : Z) (l : location) :
  -1074 <= e ->
  (exists m' e', binary_round_aux Num.prec Num.emax sx (Z.pos m) e l = S754_finite sx m' e') \/
  binary_round_aux Num.prec Num.emax sx (Z.pos m) e l = S754_infinity sx.
Proof.
  intros He. unfold binary_round_aux.
  destruct (shr_fexp_positive m l e He) as (r1 & e1 & -> & Hr1 & He1).
  assert (Hround : 0 < round_nearest_even (shr_m r1) (loc_of_shr_record r1)).
  { unfold round_nearest_even. destruct (loc_of_shr_record r1) as [|[]]; try lia.
    destruct (Z.even (shr_m r1)); lia. }
  destruct (round_nearest_even (shr_m r1) (loc_of_shr_record r1)) as [|m2|m2]; try lia.
  destruct (shr_fexp_positive m2 loc_Exact e1 ltac:(lia)) as (r2 & e2 & -> & Hr2 & He2).
  destruct (shr_m r2) as [|m3|m3]; try lia.
  destruct (Z.leb e2 (Num.emax - Num.prec)); [left; eauto|right; reflexivity].
Qed.

Lemma binary_round_sign (sx : bool) (m : positive) (e : Z) :
  -1074 <= e ->
  (exists m' e', binary_round Num.prec Num.emax sx m e = S754_finite sx m' e') \/
  binary_round Num.prec Num.emax sx m e = S754_infinity sx.
Proof.
  intros He. unfold binary_round.
  destruct (shl_align m e _) as [mz ez] eqn:E.
  apply binary_round_aux_sign.
  unfold shl_align in E.
  destruct (fexp Num.prec Num.emax (Z.pos (digits2_pos m) + e) - e) eqn:Ed;
    injection E as <- <-; try lia.
  unfold fexp, emin, Num.prec, Num.emax in *. lia.
Qed.

Lemma gt0_of_Z (z : Z) : Num.gt0 (Num.of_Z z) = (0 <? z).
Proof.
  unfold Num.of_Z. destruct z as [|p|p]; cbn [binary_normalize]; [reflexivity| |].
  - destruct (binary_round_sign false p 0 ltac:(lia)) as [(m & e & ->)| ->]; reflexivity.
  - destruct (binary_round_sign true p 0 ltac:(lia)) as [(m & e & ->)| ->]; reflexivity.
Qed.

Lemma lt0_of_Z (z : Z) : Num.lt0 (Num.of_Z z) = (z <? 0).
Proof.
  unfold Num.of_Z. destruct z as [|p|p]; cbn [binary_normalize]; [reflexivity| |].
  - destruct (binary_round_sign false p 0 ltac:(lia)) as [(m & e & ->)| ->]; reflexivity.
  - destruct (binary_round_sign true p 0 ltac:(lia)) as [(m & e & ->)| ->]; reflexivity.
Qed.

Lemma is_zero_of_Z (z : Z) : Num.eqb (Num.of_Z z) Num.zero = (z =? 0).
Proof.
  unfold Num.of_Z. destruct z as [|p|p]; cbn [binary_normalize]; [reflexivity| |].
  - destruct (binary_round_sign false p 0 ltac:(lia)) as [(m & e & ->)| ->]; reflexivity.
  - destruct (binary_round_sign true p 0 ltac:(lia)) as [(m & e & ->)| ->]; reflexivity.
Qed.

(** ** The page buttons *)

Ltac split_page_tests :=
  repeat first
    [ match goal with |- context [(?a <=? ?b)%Z] => destruct (Z.leb_spec a b) end
    | match goal with |- context [(?a <? ?b)%Z] => destruct (Z.ltb_spec a b) end ].

(** The window of numbered pages: it lies within the pages, and around the
    current page when that is one of them. *)
Lemma renderPageNumbers_shape (currentPage totalPages : Z) :
  exists startPage endPage,
    renderPageNumbers currentPage totalPages =
      first_buttons startPage
      ++ map (page_button currentPage) (seqZ startPage (endPage - startPage + 1))
      ++ last_buttons endPage totalPages /\
    1 <= startPage /\ endPage <= totalPages /\
    (1 < startPage -> startPage <= endPage) /\
    (endPage < totalPages -> startPage <= endPage) /\
    (1 <= currentPage <= totalPages ->
     startPage <= currentPage <= endPage /\ endPage - startPage + 1 = Z.min 5 totalPages).
Proof.
  unfold renderPageNumbers, maxPageButtons. change (5 / 2) with 2.
  destruct (Z.leb_spec (currentPage - 2) 0) as [H1|H1]; cbv zeta;
    [destruct (Z.ltb_spec totalPages (Z.min 5 totalPages)) as [H2|H2]
    |destruct (Z.ltb_spec totalPages (currentPage + 2)) as [H2|H2]];
    eexists _, _; (split; [reflexivity|]); lia.
Qed.

Lemma NoDup_keys (pre post : list PropValue) (s n : Z) :
  NoDup pre -> NoDup post ->
  (forall k, k ∈ pre -> k ∉ post) ->
  (forall i, s <= i < s + n -> (PNumber i ∉ pre) /\ (PNumber i ∉ post)) ->
  NoDup (pre ++ map PNumber (seqZ s n) ++ post).
Proof.
  intros Hpre Hpost Hdisj Hmid.
  apply NoDup_app. split; [exact Hpre|]. split.
  - intros k Hk Hin. apply elem_of_app in Hin as [Hin|Hin].
    + apply list_elem_of_fmap in Hin as (i & -> & Hi). apply elem_of_seqZ in Hi.
      destruct (Hmid i Hi) as [H _]. contradiction.
    + exact (Hdisj k Hk Hin).
  - apply NoDup_app. split; [|split; [|exact Hpost]].
    + apply NoDup_fmap_2; [intros i j [= ->]; reflexivity|apply NoDup_seqZ].
    + intros k Hin. apply list_elem_of_fmap in Hin as (i & -> & Hi). apply elem_of_seqZ in Hi.
      destruct (Hmid i Hi) as [_ H]. exact H.
Qed.

Lemma page_button_keys (currentPage : Z) (l : list Z) :
  map PageButton.key (map (page_button currentPage) l) = map PNumber l.
Proof. rewrite map_map. reflexivity. Qed.

Lemma page_button_targets (currentPage : Z) (l : list Z) :
  map PageButton.onClick (map (page_button currentPage) l) = l.
Proof. rewrite map_map. apply map_id. Qed.

Ltac no_member :=
  rewrite ?not_elem_of_cons; repeat split;
  try apply not_elem_of_nil; try discriminate; try (intros [= ?]; lia).

Ltac no_dup :=
  repeat (apply NoDup_cons_2; [no_member|]); try apply NoDup_nil_2.

(** The React keys of the buttons are pairwise distinct, whatever the
    current page and the number of pages. *)
Theorem renderPageNumbers_keys_distinct (currentPage totalPages : Z) :
  NoDup (map PageButton.key (renderPageNumbers currentPage totalPages)).
Proof.
  destruct (renderPageNumbers_shape currentPage totalPages)
    as (s & e & -> & Hs & He & Hse & Hes & _).
  rewrite !map_app, page_button_keys. apply NoDup_keys.
  - unfold first_buttons. split_page_tests; cbn [map PageButton.key]; no_dup.
  - unfold last_buttons. split_page_tests; cbn [map app PageButton.key]; no_dup.
  - intros k Hk. unfold first_buttons, last_buttons in *.
    revert Hk. split_page_tests; cbn [map app PageButton.key]; intros Hk;
      repeat (apply elem_of_cons in Hk as [->|Hk]);
      try (apply elem_of_nil in Hk; contradiction); no_member.
  - intros i Hi. unfold first_buttons, last_buttons.
    split_page_tests; cbn [map app PageButton.key]; split; no_member.
Qed.

Lemma StronglySorted_lt_app (l1 l2 : list Z) :
  StronglySorted Z.lt l1 -> StronglySorted Z.lt l2 ->
  (forall a b, In a l1 -> In b l2 -> a < b) ->
  StronglySorted Z.lt (l1 ++ l2).
Proof.
  induction 1 as [|a l1 Hs IH Hall]; intros H2 Hlt; cbn [app]; [exact H2|].
  constructor.
  - apply IH; [exact H2|]. intros x y Hx Hy. apply Hlt; [right; exact Hx|exact Hy].
  - apply Forall_app. split; [exact Hall|].
    apply Forall_forall. intros y Hy. apply Hlt; [left; reflexivity|].
    apply list_elem_of_In. exact Hy.
Qed.

Lemma StronglySorted_seqZ (s n : Z) : StronglySorted Z.lt (seqZ s n).
Proof.
  destruct (Z.le_gt_cases n 0) as [Hn|Hn].
  - rewrite seqZ_nil by exact Hn. constructor.
  - rewrite <- (Z2Nat.id n) by lia. clear Hn.
    generalize (Z.to_nat n). clear n. intros k. revert s.
    induction k as [|k IH]; intros s; [constructor|].
    rewrite seqZ_cons by lia. constructor.
    + replace (Z.pred (Z.of_nat (S k))) with (Z.of_nat k) by lia. apply IH.
    + apply Forall_forall. intros y Hy. apply elem_of_seqZ in Hy. lia.
Qed.

Lemma increasing_length (l : list Z) (lo hi : Z) :
  StronglySorted Z.lt l -> Forall (fun a => lo <= a <= hi) l ->
  Z.of_nat (length l) <= Z.max 0 (hi - lo + 1).
Proof.
  intros Hs. revert lo. induction Hs as [|a l Hs IH Hall]; intros lo Hr; cbn [length]; [lia|].
  apply Forall_cons in Hr as [Ha Hr].
  assert (Hl : Forall (fun b => a + 1 <= b <= hi) l).
  { rewrite Forall_forall in *. intros b Hb. specialize (Hall b Hb). specialize (Hr b Hb). lia. }
  specialize (IH (a + 1) Hl). lia.
Qed.

(** The buttons lead to strictly increasing pages, all of them existing
    pages: there are at most as many buttons as pages, and none when there
    is no page. *)
Theorem renderPageNumbers_targets (currentPage totalPages : Z) :
  let buttons := renderPageNumbers currentPage totalPages in
  let targets := map PageButton.onClick buttons in
  StronglySorted Z.lt targets /\
  Forall (fun page => 1 <= page <= totalPages) targets /\
  Z.of_nat (length buttons) <= Z.max 0 totalPages.
Proof.
  cbv zeta.
  enough (H : StronglySorted Z.lt
                (map PageButton.onClick (renderPageNumbers currentPage totalPages)) /\
              Forall (fun page => 1 <= page <= totalPages)
                (map PageButton.onClick (renderPageNumbers currentPage totalPages))).
  { destruct H as [Hs Hr]. split; [exact Hs|]. split; [exact Hr|].
    pose proof (increasing_length _ 1 totalPages Hs Hr) as Hlen.
    rewrite length_map in Hlen. lia. }
  destruct (renderPageNumbers_shape currentPage totalPages)
    as (s & e & -> & Hs & He & Hse & Hes & _).
  rewrite !map_app, page_button_targets.
  assert (Hfirst : Forall (fun page => 1 <= page < s) (map PageButton.onClick (first_buttons s)) /\
                   StronglySorted Z.lt (map PageButton.onClick (first_buttons s))).
  { unfold first_buttons. split_page_tests; cbn [map PageButton.onClick];
      split; repeat constructor; lia. }
  assert (Hlast : Forall (fun page => e < page <= totalPages)
                         (map PageButton.onClick (last_buttons e totalPages)) /\
                  StronglySorted Z.lt (map PageButton.onClick (last_buttons e totalPages))).
  { unfold last_buttons. split_page_tests; cbn [map app PageButton.onClick];
      split; repeat constructor; lia. }
  destruct Hfirst as [Hf1 Hf2], Hlast as [Hl1 Hl2].
  rewrite Forall_forall in Hf1, Hl1.
  split.
  - apply StronglySorted_lt_app; [exact Hf2| |].
    + apply StronglySorted_lt_app; [apply StronglySorted_seqZ|exact Hl2|].
      intros a b Ha Hb. apply list_elem_of_In, elem_of_seqZ in Ha.
      apply list_elem_of_In, Hl1 in Hb. lia.
    + intros a b Ha Hb. apply list_elem_of_In, Hf1 in Ha.
      apply in_app_or in Hb as [Hb|Hb].
      * apply list_elem_of_In, elem_of_seqZ in Hb. lia.
      * apply list_elem_of_In, Hl1 in Hb. specialize (Hse ltac:(lia)). lia.
  - rewrite !Forall_app. split; [|split]; apply Forall_forall; intros page Hp.
    + apply Hf1 in Hp. specialize (Hse ltac:(lia)). lia.
    + apply elem_of_seqZ in Hp. lia.
    + apply Hl1 in Hp. specialize (Hes ltac:(lia)). lia.
Qed.

Lemma filter_page_buttons (currentPage : Z) (l : list Z) :
  List.filter is_page_button (map (page_button currentPage) l) = map (page_button currentPage) l.
Proof.
  induction l as [|i l IH]; [reflexivity|]. cbn [map List.filter]. cbn. f_equal. exact IH.
Qed.

Lemma filter_nil {A : Type} (P : A -> bool) (l : list A) :
  (forall a, In a l -> P a = false) -> List.filter P l = [].
Proof.
  induction l as [|a l IH]; intros H; [reflexivity|]. cbn [List.filter].
  rewrite (H a (or_introl eq_refl)). apply IH. intros b Hb. apply H. right. exact Hb.
Qed.

Lemma filter_current (currentPage : Z) (l : list Z) :
  List.filter is_current (map (page_button currentPage) l) =
  map (page_button currentPage) (List.filter (Z.eqb currentPage) l).
Proof.
  induction l as [|i l IH]; [reflexivity|]. cbn [map List.filter].
  rewrite IH. unfold is_current at 1. cbn [page_button PageButton.buttonType].
  rewrite (Z.eqb_sym currentPage i). destruct (i =? currentPage); reflexivity.
Qed.

Lemma filter_eqb_seqZ (c s n : Z) :
  s <= c < s + n -> List.filter (Z.eqb c) (seqZ s n) = [c].
Proof.
  intros Hc.
  replace n with ((c - s) + (n - (c - s))) by lia.
  rewrite seqZ_app by lia. rewrite List.filter_app.
  rewrite (filter_nil (Z.eqb c) (seqZ s (c - s))).
  - replace (s + (c - s)) with c by lia.
    rewrite seqZ_cons by lia. cbn [List.filter app]. rewrite Z.eqb_refl. f_equal.
    apply filter_nil. intros a Ha. apply list_elem_of_In, elem_of_seqZ in Ha. lia.
  - intros a Ha. apply list_elem_of_In, elem_of_seqZ in Ha. lia.
Qed.

(** On an existing page, the numbered buttons are the consecutive pages of
    a window of 5 pages (of all the pages when there are fewer) that holds
    the current page, and the current page's button is the one marked
    "current". *)
Theorem renderPageNumbers_window (currentPage totalPages : Z) :
  1 <= currentPage <= totalPages ->
  let buttons := renderPageNumbers currentPage totalPages in
  exists startPage,
    numbered_pages buttons = seqZ startPage (Z.min 5 totalPages) /\
    1 <= startPage <= currentPage /\
    currentPage < startPage + Z.min 5 totalPages <= totalPages + 1 /\
    List.filter (fun b => String.eqb (PageButton.buttonType b) "current") buttons =
      [{| PageButton.key := PNumber currentPage; PageButton.label := PNumber currentPage;
          PageButton.onClick := currentPage; PageButton.buttonType := "current" |}].
Proof.
  intros Hc. cbv zeta.
  destruct (renderPageNumbers_shape currentPage totalPages)
    as (s & e & -> & Hs & He & Hse & Hes & Hw).
  destruct (Hw Hc) as [Hin Hlen]. rewrite Hlen.
  exists s. split; [|split; [lia|split; [lia|]]].
  - unfold numbered_pages. rewrite !List.filter_app, filter_page_buttons.
    rewrite (filter_nil is_page_button (first_buttons s)), (filter_nil is_page_button (last_buttons _ _)).
    + rewrite app_nil_r. cbn [app]. apply page_button_targets.
    + intros b Hb. unfold last_buttons in Hb. revert Hb.
      split_page_tests; cbn [app In]; intros Hb; intuition (subst; reflexivity).
    + intros b Hb. unfold first_buttons in Hb. revert Hb.
      split_page_tests; cbn [app In]; intros Hb; intuition (subst; reflexivity).
  - change (fun b => String.eqb (PageButton.buttonType b) "current") with is_current.
    rewrite !List.filter_app, filter_current.
    rewrite (filter_nil is_current (first_buttons s)), (filter_nil is_current (last_buttons _ _)).
    + rewrite app_nil_r. cbn [app]. rewrite filter_eqb_seqZ by lia.
      cbn [map]. unfold page_button. rewrite Z.eqb_refl. reflexivity.
    + intros b Hb. unfold last_buttons in Hb. revert Hb.
      split_page_tests; cbn [app In]; intros Hb; intuition (subst; reflexivity).
    + intros b Hb. unfold first_buttons in Hb. revert Hb.
      split_page_tests; cbn [app In]; intros Hb; intuition (subst; reflexivity).
Qed.

Lemma renderPageNumbers_window_witness :
  numbered_pages (renderPageNumbers 9 10) = [6; 7; 8; 9; 10] /\
  map PageButton.label (renderPageNumbers 9 10) =
    [PString "<<"; PString "..."; PNumber 6; PNumber 7; PNumber 8; PNumber 9; PNumber 10].
Proof.
  destruct (renderPageNumbers_window 9 10 ltac:(lia)) as (s & Hpages & Hs & He & _).
  split; [|reflexivity]. rewrite Hpages.
  assert (s = 6) as ->; [|reflexivity].
  vm_compute in Hpages. injection Hpages as <-. reflexivity.
Defined.

(** ** The pages of the table *)

Lemma pageRows_take_drop (rows : list Row) (page itemsPerPage : Z) :
  0 < itemsPerPage -> 1 <= page ->
  pageRows rows page itemsPerPage =
  take (Z.to_nat itemsPerPage) (drop (Z.to_nat ((page - 1) * itemsPerPage)) rows).
Proof.
  intros Hk Hp. unfold pageRows, Array_slice.
  set (len := Z.of_nat (length rows)).
  destruct (Z.ltb_spec ((page - 1) * itemsPerPage) 0) as [?|_]; [nia|].
  destruct (Z.ltb_spec (page * itemsPerPage) 0) as [?|_]; [nia|].
  destruct (Z.le_gt_cases len ((page - 1) * itemsPerPage)) as [Hge|Hlt].
  - rewrite !drop_ge by lia. rewrite !take_nil. reflexivity.
  - rewrite (Z.min_l ((page - 1) * itemsPerPage)) by lia.
    destruct (Z.le_gt_cases (page * itemsPerPage) len) as [Hle|Hgt].
    + rewrite Z.min_l by lia. f_equal. lia.
    + rewrite Z.min_r by lia. rewrite !take_ge; [reflexivity| |]; rewrite length_drop; lia.
Qed.

Lemma concat_pages (rows : list Row) (itemsPerPage : Z) (n : nat) :
  0 < itemsPerPage ->
  concat (map (fun page => pageRows rows page itemsPerPage) (seqZ 1 (Z.of_nat n))) =
  take (n * Z.to_nat itemsPerPage) rows.
Proof.
  intros Hk. induction n as [|n IH]; [reflexivity|].
  rewrite seqZ_S, map_app, concat_app, IH. cbn [map concat]. rewrite app_nil_r.
  rewrite pageRows_take_drop by lia.
  replace (Z.to_nat ((1 + Z.of_nat n - 1) * itemsPerPage)) with (n * Z.to_nat itemsPerPage)%nat
    by nia.
  rewrite take_take_drop. f_equal. lia.
Qed.

(** For a positive [itemsPerPage], the pages 1 to [totalPages] are the
    consecutive chunks of the rows: put end to end they give the rows back,
    every page before the last is full, the last is not empty, and a page
    after the last is empty. *)
Theorem pages_partition (rows : list Row) (itemsPerPage : Z) :
  0 < itemsPerPage ->
  exists n : Z,
    totalPages rows itemsPerPage = Num.of_Z n /\
    concat (map (fun page => pageRows rows page itemsPerPage) (seqZ 1 n)) = rows /\
    (forall page, 1 <= page < n ->
       Z.of_nat (length (pageRows rows page itemsPerPage)) = itemsPerPage) /\
    (1 <= n -> pageRows rows n itemsPerPage <> []) /\
    (forall page, n < page -> pageRows rows page itemsPerPage = []).
Proof.
  intros Hk. destruct (totalPages_ceiling rows itemsPerPage Hk) as (n & Hn & Hlen).
  assert (H0 : 0 <= n) by nia.
  exists n. split; [exact Hn|]. split; [|split; [|split]].
  - rewrite <- (Z2Nat.id n) by exact H0. rewrite concat_pages by exact Hk.
    apply take_ge. nia.
  - intros page Hp. unfold pageRows. rewrite Array_slice_length by nia. nia.
  - intros Hn1 Hnil. apply (f_equal (fun l => Z.of_nat (length l))) in Hnil.
    unfold pageRows in Hnil. rewrite Array_slice_length in Hnil by nia.
    cbn [length] in Hnil. nia.
  - intros page Hp. apply length_zero_iff_nil. apply Nat2Z.inj.
    unfold pageRows. rewrite Array_slice_length by nia. nia.
Qed.

Lemma pages_partition_witness :
  let rows := map (fun n => sample_row "X" "05/03/2020" n JUndefined) (seqZ 1 7) in
  exists n : Z,
    totalPages rows 3 = Num.of_Z n /\
    concat (map (fun page => pageRows rows page 3) (seqZ 1 n)) = rows.
Proof.
  intros rows.
  destruct (pages_partition rows 3 ltac:(lia)) as (n & Hn & Hcat & _).
  exists n. split; assumption.
Defined.

(** [itemsPerPage] is whatever number was typed.  With 0 every page is
    empty and [totalPages] is not a finite number; with a negative number
    [-k] the first page holds all the rows but the last [k]. *)
Theorem pageRows_nonpositive_itemsPerPage (rows : list Row) (currentPage : Z) (k : positive) :
  pageRows rows currentPage 0 = [] /\
  Num.is_finite (totalPages rows 0) = false /\
  pageRows rows 1 (Z.neg k) = take (length rows - Pos.to_nat k) rows.
Proof.
  split; [|split].
  - unfold pageRows. rewrite !Z.mul_0_r. unfold Array_slice. cbn [Z.ltb Z.compare].
    rewrite Z.sub_diag. reflexivity.
  - unfold totalPages. cbn [Z.eqb]. destruct (Z.of_nat (length rows) =? 0); reflexivity.
  - unfold pageRows, Array_slice.
    change ((1 - 1) * Z.neg k) with 0. change (1 * Z.neg k) with (Z.neg k).
    change (Z.neg k <? 0) with true. change (0 <? 0) with false. cbv iota.
    rewrite Z.min_l by lia. rewrite Z.sub_0_r. cbn [Z.to_nat drop]. f_equal. lia.
Qed.

(** ** Distinct values in the order of their first occurrence *)

Lemma filter_filter_and {A : Type} (P Q : A -> bool) (l : list A) :
  List.filter P (List.filter Q l) = List.filter (fun a => Q a && P a) l.
Proof.
  induction l as [|a l IH]; [reflexivity|]. cbn [List.filter].
  destruct (Q a); cbn [List.filter andb]; [destruct (P a)|]; rewrite IH; reflexivity.
Qed.

Lemma Set_from_acc (values set : list string) :
  fold_left Set_add values set =
  set ++ List.filter (fun v => negb (existsb (String.eqb v) set)) (Set_from values).
Proof.
  revert set. induction values as [|x values IH]; intros set.
  - cbn. rewrite app_nil_r. reflexivity.
  - unfold Set_from. cbn [fold_left]. rewrite (IH (Set_add [] x)), (IH (Set_add set x)).
    fold (Set_from values). unfold Set_add. cbn [existsb app].
    cbn [List.filter]. rewrite filter_filter_and.
    destruct (existsb (String.eqb x) set) eqn:Ex; cbn [negb app].
    + f_equal. apply filter_ext. intros v. rewrite orb_false_r.
      destruct (String.eqb_spec v x) as [->|Hne]; [rewrite Ex; reflexivity|reflexivity].
    + rewrite <- app_assoc. cbn [app]. do 2 f_equal. apply filter_ext. intros v.
      rewrite existsb_app. cbn [existsb]. rewrite !orb_false_r, negb_orb. apply andb_comm.
Qed.

Lemma Set_from_cons (x : string) (values : list string) :
  Set_from (x :: values) = x :: List.filter (fun v => negb (String.eqb v x)) (Set_from values).
Proof.
  unfold Set_from at 1. cbn [fold_left]. rewrite Set_from_acc. unfold Set_add. cbn [existsb app].
  f_equal. apply filter_ext. intros v. cbn [existsb]. rewrite orb_false_r. reflexivity.
Qed.


Lemma Set_from_In (values : list string) (v : string) : In v (Set_from values) <-> In v values.
Proof.
  induction values as [|x values IH]; [reflexivity|].
  rewrite Set_from_cons. cbn [In]. rewrite filter_In, IH, negb_true_iff.
  destruct (String.eqb_spec v x) as [->|Hne]; intuition congruence.
Qed.

Lemma Set_from_NoDup (values : list string) : List.NoDup (Set_from values).
Proof.
  induction values as [|x values IH]; [constructor|].
  rewrite Set_from_cons. constructor.
  - rewrite filter_In, String.eqb_refl. intros [_ H]. discriminate H.
  - apply List.NoDup_filter. exact IH.
Qed.


(** The options of the country selector are the distinct countries of the
    rows, each once, in the order of their first row, with the country as
    value and as label. *)
Theorem getUniqueCountries_options :
  (forall allData : list Row,
     let options := getUniqueCountries allData in
     List.NoDup (map fst options) /\
     (forall c, In c (map fst options) <-> In c (map country allData)) /\
     map snd options = map fst options) /\
  getUniqueCountries [] = [] /\
  (forall (row : Row) (allData : list Row),
     map fst (getUniqueCountries (row :: allData)) =
     country row ::
       List.filter (fun c => negb (String.eqb c (country row)))
                   (map fst (getUniqueCountries allData))).
Proof.
  assert (Hfst : forall allData, map fst (getUniqueCountries allData) =
                                 Set_from (map country allData)).
  { intros allData. unfold getUniqueCountries. rewrite map_map. apply map_id. }
  split; [|split; [reflexivity|]].
  - intros allData. cbv zeta. rewrite Hfst. split; [apply Set_from_NoDup|].
    split; [intros c; apply Set_from_In|].
    unfold getUniqueCountries. rewrite !map_map. apply map_id.
  - intros row allData. rewrite !Hfst. cbn [map]. apply Set_from_cons.
Qed.

(** ** The time series of the chart *)










(** ** The country clause of the filter *)

Lemma is_white_toLowerCase_char (c : ascii) :
  Str.is_white (toLowerCase_char c) = Str.is_white c.
Proof. destruct c as [[] [] [] [] [] [] [] []]; reflexivity. Qed.

Lemma toLowerCase_length (s : string) : String.length (toLowerCase s) = String.length s.
Proof. induction s as [|c s IH]; cbn [toLowerCase String.length]; congruence. Qed.

Lemma trim_start_toLowerCase (s : string) :
  Str.trim_start (toLowerCase s) = toLowerCase (Str.trim_start s).
Proof.
  induction s as [|c s IH]; [reflexivity|]. cbn [toLowerCase Str.trim_start].
  rewrite is_white_toLowerCase_char. destruct (Str.is_white c); [exact IH|reflexivity].
Qed.

Lemma trim_end_toLowerCase (s : string) :
  Str.trim_end (toLowerCase s) = toLowerCase (Str.trim_end s).
Proof.
  induction s as [|c s IH]; [reflexivity|]. cbn [toLowerCase Str.trim_end].
  rewrite IH, is_white_toLowerCase_char.
  destruct (Str.trim_end s); cbn [toLowerCase]; [destruct (Str.is_white c)|]; reflexivity.
Qed.

Lemma trim_toLowerCase (s : string) : Str.trim (toLowerCase s) = toLowerCase (Str.trim s).
Proof. unfold Str.trim. rewrite trim_start_toLowerCase. apply trim_end_toLowerCase. Qed.

Lemma trim_start_length (s : string) :
  (String.length (Str.trim_start s) <= String.length s)%nat /\
  (String.length (Str.trim_start s) = String.length s -> Str.trim_start s = s).
Proof.
  induction s as [|c s [IH1 IH2]]; cbn [Str.trim_start String.length]; [split; [lia|reflexivity]|].
  destruct (Str.is_white c); cbn [String.length]; split; try lia; auto.
Qed.

Lemma trim_end_length (s : string) :
  (String.length (Str.trim_end s) <= String.length s)%nat /\
  (String.length (Str.trim_end s) = String.length s -> Str.trim_end s = s).
Proof.
  induction s as [|c s [IH1 IH2]]; cbn [Str.trim_end String.length]; [split; [lia|reflexivity]|].
  destruct (Str.trim_end s) as [|d t] eqn:E.
  - destruct (Str.is_white c); cbn [String.length] in *; split; try lia.
    intros Hlen. destruct s; [reflexivity|cbn [String.length] in Hlen; lia].
  - cbn [String.length] in *. split; [lia|]. intros Hlen. f_equal. apply IH2. lia.
Qed.

Lemma trim_length (s : string) :
  String.length (Str.trim s) = String.length s -> Str.trim s = s.
Proof.
  unfold Str.trim. intros Hlen.
  destruct (trim_start_length s) as [Hs1 Hs2].
  destruct (trim_end_length (Str.trim_start s)) as [He1 He2].
  rewrite He2 by lia. apply Hs2. lia.
Qed.

Lemma trim_end_idempotent (s : string) : Str.trim_end (Str.trim_end s) = Str.trim_end s.
Proof.
  induction s as [|c s IH]; [reflexivity|]. cbn [Str.trim_end].
  destruct (Str.trim_end s) as [|d t] eqn:E.
  - destruct (Str.is_white c) eqn:Ec; [reflexivity|]. cbn [Str.trim_end]. rewrite Ec. reflexivity.
  - cbn [Str.trim_end] in *. rewrite IH. reflexivity.
Qed.

Lemma trim_start_trim_end (s : string) :
  Str.trim_start s = s -> Str.trim_start (Str.trim_end s) = Str.trim_end s.
Proof.
  destruct s as [|c s]; [reflexivity|]. cbn [Str.trim_start Str.trim_end].
  destruct (Str.is_white c) eqn:Ec.
  - intros H. destruct (trim_start_length s) as [Hle _].
    apply (f_equal String.length) in H. cbn [String.length] in H. lia.
  - intros _. destruct (Str.trim_end s); cbn [Str.trim_start]; rewrite Ec; reflexivity.
Qed.

Lemma trim_start_idempotent (s : string) :
  Str.trim_start (Str.trim_start s) = Str.trim_start s.
Proof.
  induction s as [|c s IH]; [reflexivity|]. cbn [Str.trim_start].
  destruct (Str.is_white c) eqn:Ec; [exact IH|]. cbn [Str.trim_start]. rewrite Ec. reflexivity.
Qed.

Lemma trim_idempotent (s : string) : Str.trim (Str.trim s) = Str.trim s.
Proof.
  unfold Str.trim.
  rewrite (trim_start_trim_end (Str.trim_start s)) by apply trim_start_idempotent.
  apply trim_end_idempotent.
Qed.

Lemma countryMatches_trimmed (entry : Row) (selectedCountry : string) :
  countryMatches entry selectedCountry = true -> is_trimmed selectedCountry = true.
Proof.
  unfold countryMatches, is_trimmed. cbn [ToBoolean]. intros H.
  apply orb_true_iff in H as [H|H].
  - apply negb_true_iff, negb_false_iff, String.eqb_eq in H. subst. reflexivity.
  - apply String.eqb_eq in H. apply String.eqb_eq. apply trim_length.
    rewrite <- (toLowerCase_length (Str.trim selectedCountry)), <- trim_toLowerCase, <- H.
    rewrite trim_toLowerCase, trim_idempotent, H. apply toLowerCase_length.
Qed.

(** The selector offers the countries as the rows spell them, but the
    filter trims the row's country and not the selected one: a row matches
    its own country exactly when that name has no white space at either
    end, and selecting a name that has some leaves no row at all. *)
Theorem own_country_matches_iff_trimmed :
  (forall entry : Row, countryMatches entry (country entry) = is_trimmed (country entry)) /\
  (forall (allData : list Row) (f : Filters.t),
     is_trimmed (Filters.selectedCountry f) = false -> filteredData allData f = []).
Proof.
  split.
  - intros entry. destruct (is_trimmed (country entry)) eqn:Et.
    + unfold countryMatches. unfold is_trimmed in Et. apply String.eqb_eq in Et.
      rewrite Et, String.eqb_refl. apply orb_true_r.
    + destruct (countryMatches entry (country entry)) eqn:Em; [|reflexivity].
      apply countryMatches_trimmed in Em. congruence.
  - intros allData f Hf. unfold filteredData. apply filter_nil. intros entry _.
    destruct (countryMatches entry (Filters.selectedCountry f)) eqn:Em; [|reflexivity].
    apply countryMatches_trimmed in Em. congruence.
Qed.

(** ** The value clause of the filter *)

Lemma final_row_get (records : list Raw.t) (r : Raw.t) (column : string) :
  In r records -> In column (map fst getColumnOptions) ->
  is_undefined (row_get column (final_row records r)) = false /\
  is_null (row_get column (final_row records r)) = false.
Proof.
  intros Hin Hc.
  pose proof (lookup_total_accumulate_all Raw.countriesAndTerritories Raw.cases records r Hin) as Hc1.
  pose proof (lookup_total_accumulate_all Raw.countriesAndTerritories Raw.deaths records r Hin) as Hc2.
  cbn [map fst getColumnOptions In] in Hc.
  repeat (destruct Hc as [<-|Hc]; [unfold row_get; cbn [String.eqb Ascii.eqb Bool.eqb];
    cbn [final_row with_stats with_totals new_row country totalCases totalDeaths averageCases
         averageDeaths maxCases maxDeaths casesPer1000 deathsPer1000 cases deaths];
    rewrite ?Hc1, ?Hc2; split; reflexivity|]).
  destruct Hc.
Qed.

(** Choosing a column of the selector and leaving both bounds empty hides
    no row: every row [fetchData] builds holds a value in every column
    the selector offers. *)
Theorem isValueValid_without_bounds (records : list Raw.t) :
  exists rows series,
    fetchData [] records = Normal (rows, series) /\
    forall option entry,
      In option getColumnOptions -> In entry rows ->
      isValueValid entry (Some option) "" "" = true.
Proof.
  eexists _, _. split; [apply fetchData_rows|].
  intros [value label_] entry Hopt Hentry.
  apply in_map_iff in Hentry as (r & <- & Hr).
  assert (Hv : In value (map fst getColumnOptions)).
  { apply in_map_iff. exists (value, label_). split; [reflexivity|exact Hopt]. }
  destruct (final_row_get records r value Hr Hv) as [Hu Hn].
  unfold isValueValid. rewrite Hu, Hn. cbn [String.eqb negb andb orb].
  destruct (ToBoolean (JStr value)); reflexivity.
Qed.

(** "Reset Filters" does not reset the dates: after it the rows shown are
    those the date clause keeps for the start and end dates that were set,
    and resetting twice is resetting once. *)
Theorem resetFilters_keeps_dates (allData : list Row) (f : Filters.t) :
  filteredData allData (resetFilters f) =
    List.filter (fun entry => isDateValid entry (Filters.startDate f) (Filters.endDate f))
                allData /\
  resetFilters (resetFilters f) = resetFilters f.
Proof.
  split; [|reflexivity].
  unfold filteredData. apply filter_ext. intros entry.
  cbn [resetFilters Filters.selectedCountry Filters.startDate Filters.endDate
       Filters.selectedColumn Filters.minValue Filters.maxValue isValueValid].
  unfold countryMatches. cbn [ToBoolean String.eqb negb orb andb].
  apply andb_true_r.
Qed.

(** ** The first and the last date of the feed *)

Lemma TimeClip_Some (tv t : Z) :
  JsDate.TimeClip tv = Some t -> tv = t /\ Z.abs t <= 8640000000000000.
Proof.
  unfold JsDate.TimeClip. destruct (Z.leb_spec (Z.abs tv) 8640000000000000); [|discriminate].
  intros [= <-]. split; [reflexivity|assumption].
Qed.

Lemma parse_range (s : string) (t : Z) :
  JsDate.parse s = Some t -> Z.abs t <= 8640000000000000.
Proof.
  unfold JsDate.parse.
  destruct (map JsDate.parse_numeral (JsDate.split_on "/" s)) as [|[c0|] [|[c1|] [|[c2|] [|? ?]]]];
    try discriminate.
  unfold JsDate.compose_day. destruct (JsDate.is_day c0); cbv zeta;
    match goal with |- context [if ?b then JsDate.TimeClip _ else None] => destruct b end;
    try discriminate; intros H; apply TimeClip_Some in H; apply H.
Qed.

Section Extremum.
Variable pick : Z -> Z -> Z.
Variable R : Z -> Z -> Prop.
Hypothesis pick_l : forall a b, R (pick a b) a.
Hypothesis pick_r : forall a b, R (pick a b) b.
Hypothesis pick_one : forall a b, pick a b = a \/ pick a b = b.
Hypothesis R_trans : forall a b c, R a b -> R b c -> R a c.

Let step (acc d' : JsDate.t) : JsDate.t := a ← acc; b ← d'; Some (pick a b).

Lemma extremum_fold (rest : list JsDate.t) (d : JsDate.t) :
  match fold_left step rest d with
  | Some m =>
      (exists a, d = Some a /\ R m a) /\
      Forall (fun d' => exists b, d' = Some b /\ R m b) rest /\
      In (Some m) (d :: rest)
  | None => In None (d :: rest)
  end.
Proof.
  revert d. induction rest as [|d' rest IH]; intros d; cbn [fold_left].
  - destruct d as [a|]; [|left; reflexivity].
    split; [exists a; split; [reflexivity|]|split; [constructor|left; reflexivity]].
    destruct (pick_one a a) as [H|H]; rewrite <- H at 1; apply pick_l.
  - specialize (IH (step d d')). destruct (fold_left step rest (step d d')) as [m|].
    + destruct IH as ((c & Hc & Hm) & Hall & Hin).
      destruct d as [a|]; [|discriminate Hc]. destruct d' as [b|]; [|discriminate Hc].
      cbn in Hc. injection Hc as <-.
      split; [exists a; split; [reflexivity|]; eapply R_trans; [exact Hm|apply pick_l]|].
      split.
      * constructor; [|exact Hall]. exists b. split; [reflexivity|].
        eapply R_trans; [exact Hm|apply pick_r].
      * destruct Hin as [Hin|Hin]; [|right; right; exact Hin].
        cbn in Hin. injection Hin as Hin.
        destruct (pick_one a b) as [H|H]; rewrite H in Hin; subst m;
          [left; reflexivity|right; left; reflexivity].
    + destruct IH as [Hin|Hin]; [|right; right; exact Hin].
      destruct d as [a|]; [|left; reflexivity].
      destruct d' as [b|]; [discriminate Hin|right; left; reflexivity].
Qed.

Lemma Date_of_extremum_spec (records : list Raw.t) :
  match Date_of_extremum pick (dates records) with
  | Some m =>
      records <> [] /\
      Forall (fun r => exists t, JsDate.of_dateRep (Raw.dateRep r) = Some t /\ R m t) records /\
      Exists (fun r => JsDate.of_dateRep (Raw.dateRep r) = Some m) records
  | None =>
      records = [] \/ Exists (fun r => JsDate.of_dateRep (Raw.dateRep r) = None) records
  end.
Proof.
  unfold Date_of_extremum, dates. destruct records as [|r records]; [left; reflexivity|].
  cbn [map].
  pose proof (extremum_fold (map (fun record => JsDate.of_dateRep (Raw.dateRep record)) records)
                            (JsDate.of_dateRep (Raw.dateRep r))) as H.
  match goal with
  | |- context [fold_left ?f ?l ?d] => change (fold_left step l d) with (fold_left f l d) in H
  end.
  destruct (fold_left _ _ _) as [m|]; cbn [mbind option_bind].
  - destruct H as ((a & Ha & Hma) & Hall & Hin).
    assert (Hex : Exists (fun r0 => JsDate.of_dateRep (Raw.dateRep r0) = Some m) (r :: records)).
    { destruct Hin as [Hin|Hin]; [left; exact Hin|right].
      apply in_map_iff in Hin as (r0 & Hr0 & Hin). apply Exists_exists.
      exists r0. split; [apply list_elem_of_In; exact Hin|exact Hr0]. }
    assert (Hclip : JsDate.TimeClip m = Some m).
    { apply Exists_exists in Hex as (r0 & _ & Hr0). unfold JsDate.of_dateRep in Hr0.
      apply parse_range in Hr0. unfold JsDate.TimeClip.
      destruct (Z.leb_spec (Z.abs m) 8640000000000000); [reflexivity|lia]. }
    rewrite Hclip. split; [discriminate|]. split; [|exact Hex].
    constructor; [exists a; split; assumption|].
    rewrite Forall_map in Hall. exact Hall.
  - right. destruct H as [Hin|Hin]; [left; exact Hin|right].
    apply in_map_iff in Hin as (r0 & Hr0 & Hin). apply Exists_exists.
    exists r0. split; [apply list_elem_of_In; exact Hin|exact Hr0].
Qed.
End Extremum.

(** The two bounds [fetchData] sets are valid together or invalid
    together.  They are valid when the feed is not empty and every
    [dateRep] reads as a date, day first: then every record's date lies
    between them and each of them is the date of a record.  An empty feed
    or a single unreadable [dateRep] makes both of them invalid dates. *)
Theorem minDate_maxDate_bounds (records : list Raw.t) :
  match minDate records, maxDate records with
  | Some lo, Some hi =>
      records <> [] /\
      Forall (fun r => exists t, JsDate.of_dateRep (Raw.dateRep r) = Some t /\ lo <= t <= hi)
             records /\
      Exists (fun r => JsDate.of_dateRep (Raw.dateRep r) = Some lo) records /\
      Exists (fun r => JsDate.of_dateRep (Raw.dateRep r) = Some hi) records
  | None, None =>
      records = [] \/ Exists (fun r => JsDate.of_dateRep (Raw.dateRep r) = None) records
  | _, _ => False
  end.
Proof.
  pose proof (Date_of_extremum_spec Z.min Z.le Z.le_min_l Z.le_min_r
                ltac:(intros a b; lia) Z.le_trans records) as Hmin.
  pose proof (Date_of_extremum_spec Z.max Z.ge ltac:(intros a b; lia) ltac:(intros a b; lia)
                ltac:(intros a b; lia) ltac:(intros a b c; lia) records) as Hmax.
  unfold minDate, maxDate.
  destruct (Date_of_extremum Z.min (dates records)) as [lo|],
           (Date_of_extremum Z.max (dates records)) as [hi|].
  - destruct Hmin as (Hne & Hlo & Hexlo), Hmax as (_ & Hhi & Hexhi).
    split; [exact Hne|]. split; [|split; assumption].
    rewrite Forall_forall in *. intros r Hr.
    destruct (Hlo r Hr) as (t & Ht & Hle), (Hhi r Hr) as (t' & Ht' & Hge).
    exists t. split; [exact Ht|]. rewrite Ht in Ht'. injection Ht' as <-. lia.
  - destruct Hmin as (Hne & Hlo & _).
    destruct Hmax as [->|Hex]; [contradiction|].
    apply Exists_exists in Hex as (r & Hr & Hnone).
    rewrite Forall_forall in Hlo. destruct (Hlo r Hr) as (t & Ht & _). congruence.
  - destruct Hmax as (Hne & Hhi & _).
    destruct Hmin as [->|Hex]; [contradiction|].
    apply Exists_exists in Hex as (r & Hr & Hnone).
    rewrite Forall_forall in Hhi. destruct (Hhi r Hr) as (t & Ht & _). congruence.
  - exact Hmin.
Qed.

(** ** The series of the chart *)

Lemma Sorted_map_in {A B : Type} (R : A -> A -> Prop) (R' : B -> B -> Prop) (f : A -> B)
    (l : list A) :
  (forall a b, In a l -> In b l -> R a b -> R' (f a) (f b)) ->
  Sorted R l -> Sorted R' (map f l).
Proof.
  intros HR. induction 1 as [|a l Hs IH Hhd]; [constructor|]. cbn [map]. constructor.
  - apply IH. intros x y Hx Hy. apply HR; right; assumption.
  - destruct Hhd as [|b l Hab]; constructor.
    apply HR; [left; reflexivity|right; left; reflexivity|exact Hab].
Qed.

Lemma time_sub_asym (a b : JsDate.t) :
  Num.gt0 (Chart.time_sub a b) = true -> Num.gt0 (Chart.time_sub b a) = false.
Proof.
  destruct a as [ta|], b as [tb|]; cbn [Chart.time_sub]; try discriminate.
  rewrite !gt0_of_Z. lia.
Qed.

Section ChartSeries.
Context {P : DateParser}.

Lemma sortedData_spec (startDate endDate : option JsDate.t) (covidData : list TimeSeriesPoint) :
  exists sorted times,
    Chart.sortedData startDate endDate covidData = Normal sorted /\
    Permutation sorted (map chart_record (List.filter (Chart.keeps startDate endDate) covidData)) /\
    map Chart.date sorted = map Some times /\
    Sorted Z.le times /\
    Forall (fun t => within_chart_range startDate endDate t = true) times.
Proof.
  set (kept := List.filter (Chart.keeps startDate endDate) covidData).
  set (after := fun a b : Chart.SortedRecord =>
                  Num.gt0 (Chart.time_sub (Chart.date a) (Chart.date b))).
  assert (Hasym : forall a b, after a b = true -> after b a = false).
  { intros a b. apply time_sub_asym. }
  exists (isort after (map chart_record kept)),
         (map (fun r => default 0 (Chart.date r)) (isort after (map chart_record kept))).
  assert (Hdate : forall r, In r (isort after (map chart_record kept)) ->
            exists t, Chart.date r = Some t /\ within_chart_range startDate endDate t = true).
  { intros r Hr. apply (proj1 (isort_In _ _ _)) in Hr.
    apply in_map_iff in Hr as (p & <- & Hp). apply filter_In in Hp as [_ Hp].
    unfold Chart.keeps in Hp. apply andb_true_iff in Hp as [Hp Hle].
    apply andb_true_iff in Hp as [_ Hge]. cbn [chart_record Chart.date].
    destruct (parse_ddMMyyyy (ts_date p)) as [t|]; [|discriminate Hge].
    exists t. split; [reflexivity|]. unfold within_chart_range. rewrite Hge, Hle. reflexivity. }
  split; [|split; [|split; [|split]]].
  - unfold Chart.sortedData. fold kept.
    apply (Array_sort_total _ (fun a b => Chart.time_sub (Chart.date a) (Chart.date b))).
    reflexivity.
  - apply isort_Permutation.
  - rewrite map_map. apply map_ext_in. intros r Hr.
    destruct (Hdate r Hr) as (t & -> & _). reflexivity.
  - apply (Sorted_map_in (fun a b => after a b = false)); [|apply isort_Sorted; exact Hasym].
    intros a b Ha Hb Hab.
    destruct (Hdate a Ha) as (ta & Hta & _), (Hdate b Hb) as (tb & Htb & _).
    unfold after in Hab. rewrite Hta, Htb in *. cbn [default from_option Chart.time_sub] in *.
    rewrite gt0_of_Z in Hab. cbn [id]. lia.
  - apply Forall_forall. intros t Ht. apply list_elem_of_In, in_map_iff in Ht as (r & <- & Hr).
    destruct (Hdate r Hr) as (t & -> & Ht). exact Ht.
Qed.

(** Whatever the reading of the date strings, the chart never fails, its
    points are those of the records whose date reads as a time between the
    two bounds (taken inclusive), and both series list them by time, never
    decreasing, at the same time values. *)
Theorem chart_series_sorted (startDate endDate : option JsDate.t)
    (covidData : list TimeSeriesPoint) :
  exists sorted times,
    Chart.sortedData startDate endDate covidData = Normal sorted /\
    Permutation (Chart.dataPointsTotalCases sorted)
      (map (fun record => {| Chart.x := parse_ddMMyyyy (ts_date record);
                             Chart.y := ts_totalCases record |})
           (List.filter (Chart.keeps startDate endDate) covidData)) /\
    Permutation (Chart.dataPointsTotalDeaths sorted)
      (map (fun record => {| Chart.x := parse_ddMMyyyy (ts_date record);
                             Chart.y := ts_totalDeaths record |})
           (List.filter (Chart.keeps startDate endDate) covidData)) /\
    map Chart.x (Chart.dataPointsTotalCases sorted) = map Some times /\
    map Chart.x (Chart.dataPointsTotalDeaths sorted) = map Some times /\
    Sorted Z.le times /\
    Forall (fun t => within_chart_range startDate endDate t = true) times.
Proof.
  destruct (sortedData_spec startDate endDate covidData)
    as (sorted & times & Hrun & Hperm & Hdates & Hsorted & Hrange).
  exists sorted, times. split; [exact Hrun|].
  unfold Chart.dataPointsTotalCases, Chart.dataPointsTotalDeaths.
  split; [|split; [|split; [|split; [|split; assumption]]]].
  - rewrite Hperm, map_map. reflexivity.
  - rewrite Hperm, map_map. reflexivity.
  - rewrite map_map. exact Hdates.
  - rewrite map_map. exact Hdates.
Qed.

(** A bound that is [null] is no bound for the table, but the chart takes
    it for the 1st of January 1970: with a null end date the table keeps
    every row whose date reads, and the chart keeps no record dated after
    that day. *)
Theorem null_end_date_in_table_and_chart :
  (forall entry : Row,
     isDateValid entry None None =
     match JsDate.parse (date entry) with Some _ => true | None => false end) /\
  (forall (startDate : option JsDate.t) (covidData : list TimeSeriesPoint),
     exists sorted times,
       Chart.sortedData startDate None covidData = Normal sorted /\
       map Chart.date sorted = map Some times /\
       Forall (fun t => t <= 0) times).
Proof.
  split.
  - intros entry. unfold isDateValid. destruct (JsDate.parse (date entry)); reflexivity.
  - intros startDate covidData.
    destruct (sortedData_spec startDate None covidData)
      as (sorted & times & Hrun & _ & Hdates & _ & Hrange).
    exists sorted, times. split; [exact Hrun|]. split; [exact Hdates|].
    eapply Forall_impl; [exact Hrange|]. intros t Ht. unfold within_chart_range in Ht.
    apply andb_true_iff in Ht as [_ Ht]. cbn in Ht. lia.
Qed.
End ChartSeries.

(** Two points of the feed, given out of order and read day first: the
    chart lists the 1st of March before the 5th. *)
Example chart_series_sample :
  let day (y m d : Z) : JsDate.t := JsDate.TimeClip (JsDate.MakeDay y (m - 1) d * JsDate.msPerDay) in
  let covidData :=
    [{| ts_date := "05/03/2020"; ts_totalCases := 30; ts_totalDeaths := 3 |};
     {| ts_date := "01/03/2020"; ts_totalCases := 10; ts_totalDeaths := 1 |};
     {| ts_date := "01/04/2020"; ts_totalCases := 50; ts_totalDeaths := 5 |}] in
  (Chart.dataPointsTotalCases <$>
     @Chart.sortedData day_first_parser (Some (day 2020 3 1)) (Some (day 2020 3 31)) covidData) =
  Normal [{| Chart.x := day 2020 3 1; Chart.y := 10 |};
          {| Chart.x := day 2020 3 5; Chart.y := 30 |}].
Proof. vm_compute. reflexivity. Qed.

(** ** Sorting by any column *)

Lemma isort_never_after {A : Type} (after : A -> A -> bool) (l : list A) :
  (forall a b, after a b = false) -> isort after l = l.
Proof.
  intros H. apply isort_sorted_id.
  induction l as [|a l IH]; [constructor|]. constructor; [exact IH|].
  destruct l; constructor. apply H.
Qed.

Lemma row_get_unknown (column : string) (a : Row) :
  is_row_column column = false ->
  row_get column a = JUndefined /\
  String.eqb column "country" = false /\ is_numeric_column column = false.
Proof.
  unfold is_row_column, row_columns. cbn [existsb]. intros H.
  repeat (apply orb_false_iff in H as [? H]).
  unfold row_get, is_numeric_column, numeric_columns. cbn [existsb].
  repeat match goal with Heq : String.eqb column _ = false |- _ => rewrite Heq; clear Heq end.
  repeat split; reflexivity.
Qed.

Section AnyColumn.
Context {C : Collator}.

(** Sorting by a column the rows do not have keeps the order of the rows;
    such is the state before any header is clicked, when [sortedColumn] is
    [null]. *)
Theorem sortData_unknown_column (column direction : string) (rows : list Row) :
  is_row_column column = false ->
  sortedRows column direction rows = Normal rows.
Proof.
  intros Hc. rewrite sortedRows_isort. f_equal. apply isort_never_after.
  intros a b. rewrite sorts_after_value. unfold compare_value.
  destruct (row_get_unknown column a Hc) as (Ha & Hcountry & Hnum).
  destruct (row_get_unknown column b Hc) as (Hb & _ & _).
  assert (Hs : forall r, row_get column r = JUndefined -> switch_value column r = JStr "").
  { intros r Hr. unfold switch_value. rewrite Hcountry, Hnum, Hr. reflexivity. }
  rewrite (compareFn_strings _ _ _ _ _ _ (Hs a Ha) (Hs b Hb)).
  destruct (String.eqb direction "asc"); reflexivity.
Qed.

Lemma compare_value_swap {HC : ConsistentCollator C} (column direction : string) (a b : Row) :
  Num.gt0 (compare_value column direction b a) = Num.lt0 (compare_value column direction a b).
Proof.
  assert (Hstr : forall sa sb,
    let comparison x y :=
      if isNaN (JStr x) || isNaN (JStr y) then comparison_number (localeCompare x y)
      else Num.sub (Str.StringToNumber x) (Str.StringToNumber y) in
    Num.gt0 (comparison sb sa) = Num.lt0 (comparison sa sb)).
  { intros sa sb. cbv beta zeta. rewrite (orb_comm (isNaN (JStr sb))).
    destruct (isNaN (JStr sa) || isNaN (JStr sb)).
    - rewrite gt0_comparison_number, lt0_comparison_number, (localeCompare_antisym sa sb).
      destruct (localeCompare sa sb); reflexivity.
    - apply gt0_sub_swap. }
  assert (Hdir : forall x y : float64,
    Num.gt0 y = Num.lt0 x -> Num.gt0 x = Num.lt0 y ->
    Num.gt0 (if String.eqb direction "asc" then y else Num.neg y) =
    Num.lt0 (if String.eqb direction "asc" then x else Num.neg x)).
  { intros x y H1 H2. destruct (String.eqb direction "asc"); [exact H1|].
    unfold Num.neg. rewrite gt0_opp, lt0_opp. symmetry. exact H2. }
  unfold compare_value.
  destruct (String.eqb_spec column "country") as [->|Hc].
  - rewrite (compareFn_strings _ _ _ _ _ _ (switch_value_country b) (switch_value_country a)).
    rewrite (compareFn_strings _ _ _ _ _ _ (switch_value_country a) (switch_value_country b)).
    cbv beta zeta in *. apply Hdir; apply Hstr.
  - destruct (is_numeric_column column) eqn:En.
    + rewrite (compareFn_numbers _ _ _ _ _ _
                 (switch_value_numeric _ b En) (switch_value_numeric _ a En)
                 (to_numeric_not_nan _) (to_numeric_not_nan _)).
      rewrite (compareFn_numbers _ _ _ _ _ _
                 (switch_value_numeric _ a En) (switch_value_numeric _ b En)
                 (to_numeric_not_nan _) (to_numeric_not_nan _)).
      apply Hdir; apply gt0_sub_swap.
    + assert (Hs : forall r, switch_value column r =
                             JStr (ToString (or_empty (row_get column r)))).
      { intros r. unfold switch_value.
        destruct (String.eqb_spec column "country"); [contradiction|].
        rewrite En. reflexivity. }
      rewrite (compareFn_strings _ _ _ _ _ _ (Hs b) (Hs a)).
      rewrite (compareFn_strings _ _ _ _ _ _ (Hs a) (Hs b)).
      cbv beta zeta in *. apply Hdir; apply Hstr.
Qed.

(** For every column and either direction, with a consistent collation:
    in the sorted rows no row is followed by one that the comparator puts
    before it, and sorting the result again changes nothing. *)
Theorem sortData_ordered_any_column {HC : ConsistentCollator C}
    (column direction : string) (rows : list Row) :
  exists sorted,
    sortedRows column direction rows = Normal sorted /\
    Sorted (fun a b => sorts_after column direction a b = false) sorted /\
    sortedRows column direction sorted = Normal sorted.
Proof.
  assert (Hasym : forall a b, sorts_after column direction a b = true ->
                              sorts_after column direction b a = false).
  { intros a b. rewrite !sorts_after_value, (compare_value_swap column direction a b).
    apply gt0_not_lt0. }
  exists (isort (sorts_after column direction) rows).
  split; [apply sortedRows_isort|]. split; [apply isort_Sorted; exact Hasym|].
  rewrite sortedRows_isort. f_equal. apply isort_idempotent. exact Hasym.
Qed.
End AnyColumn.

Lemma sortData_unknown_column_witness :
  @sortedRows codeunit_collator (column_key (SortState.sortedColumn SortState.initial))
              (SortState.sortDirection SortState.initial) sample_rows
  = Normal sample_rows.
Proof. apply (@sortData_unknown_column codeunit_collator). reflexivity. Defined.

Lemma sortData_ordered_any_column_witness :
  exists sorted,
    @sortedRows codeunit_collator "maxCases" "desc" sample_rows = Normal sorted /\
    map maxCases sorted = [JStr "5.0000"; JStr "4.0000"; JStr "3.0000"] /\
    @sortedRows codeunit_collator "maxCases" "desc" sorted = Normal sorted.
Proof.
  destruct (@sortData_ordered_any_column codeunit_collator codeunit_collator_consistent
              "maxCases" "desc" sample_rows) as (sorted & Hrun & _ & Hagain).
  exists sorted. split; [exact Hrun|]. split; [|exact Hagain].
  vm_compute in Hrun. injection Hrun as <-. reflexivity.
Defined.

(** ** The sorted column and its direction *)

(** A click on a header makes its column the sorted one; the first click
    on a column sorts ascending, and further clicks on it alternate between
    the two directions. *)
Theorem handleColumnSort_alternates (st : SortState.t) (column : string) :
  let once := handleColumnSort st column in
  let twice := handleColumnSort once column in
  SortState.sortedColumn once = Some column /\
  (SortState.sortedColumn st = Some column \/ SortState.sortDirection once = "asc"%string) /\
  SortState.sortedColumn twice = Some column /\
  SortState.sortDirection twice =
    (if String.eqb (SortState.sortDirection once) "asc" then "desc" else "asc")%string /\
  handleColumnSort twice column = once.
Proof.
  cbv zeta. unfold handleColumnSort.
  destruct (decide (SortState.sortedColumn st = Some column)) as [Heq|Hne];
    cbn [SortState.sortedColumn SortState.sortDirection].
  - rewrite Heq. rewrite !decide_True by reflexivity.
    cbn [SortState.sortedColumn SortState.sortDirection].
    repeat split; auto.
    destruct (String.eqb (SortState.sortDirection st) "asc"); reflexivity.
  - rewrite !decide_True by reflexivity.
    cbn [SortState.sortedColumn SortState.sortDirection String.eqb Ascii.eqb Bool.eqb].
    repeat split; auto.
Qed.

(** ** The rates of the table *)

Lemma lt0_below_lit (x : float64) :
  Num.lt0 x = true -> Num.ltb x Num.lit_0_0001 = true.
Proof. destruct x as [[]|[]| |[] m e]; try discriminate; reflexivity. Qed.

(** A record with a negative count (a correction of the feed) and a
    positive population has a negative rate: the numeric value is that
    rate, and the display value is "<0.0001". *)
Theorem calculatePer1000_negative_rate
    (props : list (string * JsVal)) (forDeaths : bool) :
  let value := assoc (if forDeaths then "deaths" else "cases") props in
  let popData2019 := assoc "popData2019" props in
  let rate := Num.div (ToNumber value) (Num.div (ToNumber popData2019) Num.lit_1000) in
  is_zero_number value = false ->
  is_null popData2019 = false ->
  Num.is_finite rate = true ->
  Num.lt0 rate = true ->
  calculatePer1000 (JObj props) forDeaths =
  Normal {| numericValue := rate; displayValue := "<0.0001" |}.
Proof.
  intros value popData2019 rate Hv Hp Hfin Hneg.
  rewrite calculatePer1000_object. cbv zeta.
  fold value popData2019. rewrite Hv, Hp. cbn [orb]. fold rate.
  rewrite Hfin, (lt0_below_lit rate Hneg). reflexivity.
Qed.

Lemma calculatePer1000_negative_rate_witness :
  calculatePer1000 (sample_object (Num.of_Z (-5)) (JNum (Num.of_Z 1000))) false =
  Normal {| numericValue := Num.of_Z (-5); displayValue := "<0.0001" |}.
Proof.
  apply (calculatePer1000_negative_rate
           [("cases", JNum (Num.of_Z (-5))); ("deaths", JNum Num.zero);
            ("popData2019", JNum (Num.of_Z 1000))]%string false); reflexivity.
Defined.

Lemma per1000_string_cases (r : Raw.t) (forDeaths : bool) :
  let count := if forDeaths then Raw.deaths r else Raw.cases r in
  (count = 0 \/ Raw.popData2019 r = None -> per1000_string r forDeaths = "0.00000"%string) /\
  (count <> 0 -> (exists s, Raw.popData2019 r = Some (S754_zero s)) ->
   per1000_string r forDeaths = "0.00010"%string).
Proof.
  cbv zeta. unfold per1000_string, Raw.to_js. rewrite calculatePer1000_object. cbv zeta.
  assert (Hval : assoc (if forDeaths then "deaths" else "cases")
                   [("dateRep", JStr (Raw.dateRep r));
                    ("cases", JNum (Num.of_Z (Raw.cases r)));
                    ("deaths", JNum (Num.of_Z (Raw.deaths r)));
                    ("countriesAndTerritories", JStr (Raw.countriesAndTerritories r));
                    ("popData2019", match Raw.popData2019 r with
                                    | Some p => JNum p
                                    | None => JNull
                                    end)]%string
                 = JNum (Num.of_Z (if forDeaths then Raw.deaths r else Raw.cases r))).
  { destruct forDeaths; reflexivity. }
  rewrite Hval. clear Hval.
  change (assoc "popData2019" _)
    with (match Raw.popData2019 r with Some p => JNum p | None => JNull end).
  cbn [is_zero_number]. rewrite is_zero_of_Z.
  set (count := if forDeaths then Raw.deaths r else Raw.cases r).
  split.
  - intros [H0|Hnone].
    + rewrite H0. reflexivity.
    + rewrite Hnone. cbn [is_null]. rewrite orb_true_r. reflexivity.
  - intros Hne (s & Hs). rewrite Hs. cbn [is_null ToNumber].
    destruct (Z.eqb_spec count 0) as [?|_]; [contradiction|]. cbn [orb].
    rewrite div_zero_lit_1000, div_by_zero_not_finite. reflexivity.
Qed.

(** The two rates of a row are strings with five fraction digits:
    "0.00000" for a record whose count is zero or whose population is
    null, and "0.00010", the placeholder 0.0001, for a record with a count
    and a population of zero. *)
Theorem fetchData_rate_strings (records : list Raw.t) :
  exists rows series,
    fetchData [] records = Normal (rows, series) /\
    forall (i : nat) (r : Raw.t),
      nth_error records i = Some r ->
      exists row,
        nth_error rows i = Some row /\
        (Raw.cases r = 0 \/ Raw.popData2019 r = None -> casesPer1000 row = "0.00000"%string) /\
        (Raw.deaths r = 0 \/ Raw.popData2019 r = None -> deathsPer1000 row = "0.00000"%string) /\
        (Raw.cases r <> 0 -> (exists s, Raw.popData2019 r = Some (S754_zero s)) ->
         casesPer1000 row = "0.00010"%string) /\
        (Raw.deaths r <> 0 -> (exists s, Raw.popData2019 r = Some (S754_zero s)) ->
         deathsPer1000 row = "0.00010"%string).
Proof.
  eexists _, _. split; [apply fetchData_rows|].
  intros i r Hi. exists (final_row records r).
  split; [rewrite nth_error_map, Hi; reflexivity|].
  cbn [final_row with_stats with_totals new_row casesPer1000 deathsPer1000].
  destruct (per1000_string_cases r false) as [Hc0 Hc1].
  destruct (per1000_string_cases r true) as [Hd0 Hd1].
  repeat split; assumption.
Qed.

(** ** Running the effect again *)

Lemma backfill_totals_map (st : Totals) :
  backfill_totals st =
  map (with_totals (totalCases_by_country st) (totalDeaths_by_country st)) (allData st).
Proof. reflexivity. Qed.

(** [fetchData] pushes onto the array of the state and rewrites the
    back-filled fields of all its rows: run again on its own result with
    the same feed, it leaves every row twice. *)
Theorem fetchData_twice (records : list Raw.t) :
  exists rows series,
    fetchData [] records = Normal (rows, series) /\
    length rows = length records /\
    fetchData rows records = Normal (rows ++ rows, series).
Proof.
  eexists _, _. split; [apply fetchData_rows|]. split; [apply length_map|].
  unfold fetchData. rewrite forEach_record_Normal. cbn [mbind Completion_bind].
  rewrite backfill_totals_map. cbn [allData totalCases_by_country totalDeaths_by_country].
  destruct (build_dailyData_spec records [] (NoDup_nil_2 : NoDup (map fst ([] : DailyData))))
    as [Hnd _].
  cbv zeta in Hnd. fold (build_dailyData records) in Hnd.
  rewrite fold_backfill_date by exact Hnd.
  do 2 f_equal. rewrite !map_app, !map_map. f_equal; apply map_ext_in; intros r Hin;
    cbn [date final_row with_stats with_totals new_row];
    destruct (build_dailyData_lookup records r Hin) as [_ ->]; reflexivity.
Qed.

(** ** Integers as numbers

    An integer of magnitude below 2^53 is a binary64 value; comparing and
    subtracting such numbers is comparing and subtracting the integers. *)

Lemma iter_xO_value (p n : positive) : Z.pos (Pos.iter xO p n) = Z.pos p * 2 ^ Z.pos n.
Proof.
  induction n as [|n IH] using Pos.peano_ind.
  - cbn [Pos.iter]. change (Z.pos p~0) with (2 * Z.pos p). rewrite Z.pow_1_r. lia.
  - rewrite Pos.iter_succ, Pos2Z.inj_succ, Z.pow_succ_r by lia.
    change (Z.pos (Pos.iter xO p n)~0) with (2 * Z.pos (Pos.iter xO p n)). rewrite IH. lia.
Qed.

Lemma iter_xO_digits (p n : positive) :
  Z.pos (digits2_pos (Pos.iter xO p n)) = Z.pos (digits2_pos p) + Z.pos n.
Proof.
  induction n as [|n IH] using Pos.peano_ind.
  - cbn [Pos.iter digits2_pos]. lia.
  - rewrite Pos.iter_succ. cbn [digits2_pos]. rewrite Pos2Z.inj_succ, IH. lia.
Qed.

Lemma digits2_pos_lt (p : positive) : Z.pos p < 2 ^ Z.pos (digits2_pos p).
Proof.
  induction p as [p IH|p IH|]; cbn [digits2_pos].
  - rewrite Pos2Z.inj_succ, Z.pow_succ_r by lia.
    change (Z.pos p~1) with (2 * Z.pos p + 1). lia.
  - rewrite Pos2Z.inj_succ, Z.pow_succ_r by lia.
    change (Z.pos p~0) with (2 * Z.pos p). lia.
  - reflexivity.
Qed.

Lemma digits2_pos_safe (p : positive) : Z.pos p < 2 ^ 53 -> Z.pos (digits2_pos p) <= 53.
Proof.
  intros Hp. pose proof (digits2_pos_le p) as Hle.
  destruct (Z.le_gt_cases (Z.pos (digits2_pos p)) 53) as [H|H]; [exact H|].
  assert (2 ^ 53 <= 2 ^ (Z.pos (digits2_pos p) - 1)) by (apply Z.pow_le_mono_r; lia).
  lia.
Qed.

Lemma mantissa_of_value (p : positive) :
  Z.pos p < 2 ^ 53 -> Z.pos (mantissa_of p) = Z.pos p * 2 ^ (- exponent_of p).
Proof.
  intros Hp. pose proof (digits2_pos_safe p Hp) as Hd. unfold mantissa_of, exponent_of.
  destruct (53 - Z.pos (digits2_pos p)) as [|n|n] eqn:E; try lia.
  - replace (- (Z.pos (digits2_pos p) - 53)) with 0 by lia. lia.
  - rewrite iter_xO_value. f_equal. f_equal. lia.
Qed.

Lemma mantissa_of_digits (p : positive) :
  Z.pos p < 2 ^ 53 -> Z.pos (digits2_pos (mantissa_of p)) = 53.
Proof.
  intros Hp. pose proof (digits2_pos_safe p Hp) as Hd. unfold mantissa_of.
  destruct (53 - Z.pos (digits2_pos p)) as [|n|n] eqn:E; try lia.
  rewrite iter_xO_digits. lia.
Qed.

Lemma binary_round_safe (s : bool) (p : positive) :
  Z.pos p < 2 ^ 53 ->
  binary_round Num.prec Num.emax s p 0 = S754_finite s (mantissa_of p) (exponent_of p).
Proof.
  intros Hp. pose proof (digits2_pos_safe p Hp) as Hd.
  pose proof (mantissa_of_digits p Hp) as Hm.
  unfold binary_round.
  assert (Halign : shl_align p 0 (fexp Num.prec Num.emax (Z.pos (digits2_pos p) + 0)) =
                   (mantissa_of p, exponent_of p)).
  { unfold shl_align, mantissa_of, exponent_of, fexp, emin, Num.prec, Num.emax.
    rewrite Z.add_0_r, Z.sub_0_r.
    replace (Z.max (Z.pos (digits2_pos p) - 53) (3 - 1024 - 53))
      with (Z.pos (digits2_pos p) - 53) by lia.
    destruct (Z.pos (digits2_pos p) - 53) as [|n|n] eqn:E; try lia.
    - replace (53 - Z.pos (digits2_pos p)) with 0 by lia. reflexivity.
    - replace (53 - Z.pos (digits2_pos p)) with (Z.pos n) by lia. reflexivity. }
  rewrite Halign. unfold binary_round_aux.
  assert (Hshr : forall l, shr_fexp Num.prec Num.emax (Z.pos (mantissa_of p)) (exponent_of p) l =
                           (shr_record_of_loc (Z.pos (mantissa_of p)) l, exponent_of p)).
  { intros l. unfold shr_fexp. cbn [Zdigits2]. rewrite Hm.
    unfold fexp, emin, Num.prec, Num.emax, exponent_of.
    replace (Z.max (53 + (Z.pos (digits2_pos p) - 53) - 53) (3 - 1024 - 53) -
             (Z.pos (digits2_pos p) - 53)) with 0 by lia.
    reflexivity. }
  rewrite Hshr. cbn [shr_record_of_loc shr_m loc_of_shr_record round_nearest_even].
  rewrite Hshr. cbn [shr_record_of_loc shr_m].
  unfold Num.emax, Num.prec, exponent_of.
  destruct (Z.leb_spec (Z.pos (digits2_pos p) - 53) (1024 - 53)); [reflexivity|lia].
Qed.

Lemma of_Z_safe (z : Z) :
  Z.abs z < 2 ^ 53 ->
  Num.of_Z z =
  match z with
  | Z0 => S754_zero false
  | Z.pos p => S754_finite false (mantissa_of p) (exponent_of p)
  | Z.neg p => S754_finite true (mantissa_of p) (exponent_of p)
  end.
Proof.
  intros Hz. unfold Num.of_Z. destruct z as [|p|p]; cbn [binary_normalize]; [reflexivity| |];
    apply binary_round_safe; lia.
Qed.

Lemma compare_safe_pos (p q : positive) :
  Z.pos p < 2 ^ 53 -> Z.pos q < 2 ^ 53 ->
  match Z.compare (exponent_of p) (exponent_of q) with
  | Lt => Lt
  | Gt => Gt
  | Eq => Pos.compare_cont Eq (mantissa_of p) (mantissa_of q)
  end = Pos.compare p q.
Proof.
  intros Hp Hq.
  pose proof (digits2_pos_le p) as Hp1. pose proof (digits2_pos_lt p) as Hp2.
  pose proof (digits2_pos_le q) as Hq1. pose proof (digits2_pos_lt q) as Hq2.
  pose proof (mantissa_of_value p Hp) as Hmp. pose proof (mantissa_of_value q Hq) as Hmq.
  unfold exponent_of in *.
  destruct (Z.compare_spec (Z.pos (digits2_pos p) - 53) (Z.pos (digits2_pos q) - 53)) as [He|He|He].
  - change (Pos.compare_cont Eq (mantissa_of p) (mantissa_of q))
      with (Pos.compare (mantissa_of p) (mantissa_of q)).
    rewrite !Pos2Z.inj_compare, Hmp, Hmq.
    replace (Z.pos (digits2_pos q) - 53) with (Z.pos (digits2_pos p) - 53) by lia.
    assert (0 < 2 ^ (- (Z.pos (digits2_pos p) - 53))).
    { apply Z.pow_pos_nonneg; [lia|]. pose proof (digits2_pos_safe p Hp). lia. }
    destruct (Z.compare_spec (Z.pos p) (Z.pos q)) as [H1|H1|H1];
      [rewrite H1; apply Z.compare_refl|apply Z.compare_lt_iff; nia|apply Z.compare_gt_iff; nia].
  - symmetry. apply Pos.compare_lt_iff.
    assert (2 ^ Z.pos (digits2_pos p) <= 2 ^ (Z.pos (digits2_pos q) - 1))
      by (apply Z.pow_le_mono_r; lia).
    lia.
  - symmetry. apply Pos.compare_gt_iff.
    assert (2 ^ Z.pos (digits2_pos q) <= 2 ^ (Z.pos (digits2_pos p) - 1))
      by (apply Z.pow_le_mono_r; lia).
    lia.
Qed.

Lemma SFcompare_of_Z (a b : Z) :
  Z.abs a < 2 ^ 53 -> Z.abs b < 2 ^ 53 ->
  SFcompare (Num.of_Z a) (Num.of_Z b) = Some (Z.compare a b).
Proof.
  intros Ha Hb. rewrite (of_Z_safe a Ha), (of_Z_safe b Hb).
  destruct a as [|p|p], b as [|q|q]; try reflexivity; cbn [SFcompare]; f_equal.
  - rewrite compare_safe_pos by lia. reflexivity.
  - cbn [Z.compare]. rewrite <- (compare_safe_pos p q) by lia.
    destruct (Z.compare (exponent_of p) (exponent_of q)); reflexivity.
Qed.

Lemma leb_of_Z (a b : Z) :
  Z.abs a < 2 ^ 53 -> Z.abs b < 2 ^ 53 -> Num.leb (Num.of_Z a) (Num.of_Z b) = (a <=? b).
Proof.
  intros Ha Hb. unfold Num.leb, SFleb. rewrite SFcompare_of_Z by assumption.
  unfold Z.leb. destruct (a ?= b); reflexivity.
Qed.

Lemma shl_align_value (m : positive) (e ez : Z) :
  ez <= e -> Z.pos (fst (shl_align m e ez)) = Z.pos m * 2 ^ (e - ez).
Proof.
  intros He. unfold shl_align. destruct (ez - e) as [|d|d] eqn:E; cbn [fst]; try lia.
  - replace (e - ez) with 0 by lia. lia.
  - rewrite iter_xO_value. f_equal. f_equal. lia.
Qed.

Lemma gt0_binary_normalize (d e : Z) :
  -1074 <= e -> Num.gt0 (binary_normalize Num.prec Num.emax d e false) = (0 <? d).
Proof.
  intros He. destruct d as [|p|p]; cbn [binary_normalize]; [reflexivity| |].
  - destruct (binary_round_sign false p e He) as [(m & e' & ->)| ->]; reflexivity.
  - destruct (binary_round_sign true p e He) as [(m & e' & ->)| ->]; reflexivity.
Qed.

Lemma exponent_of_range (p : positive) : Z.pos p < 2 ^ 53 -> -52 <= exponent_of p <= 0.
Proof. intros Hp. pose proof (digits2_pos_safe p Hp). unfold exponent_of. lia. Qed.

Lemma gt0_sub_safe_finite (sx sy : bool) (p q : positive) :
  Z.pos p < 2 ^ 53 -> Z.pos q < 2 ^ 53 ->
  Num.gt0 (Num.sub (S754_finite sx (mantissa_of p) (exponent_of p))
                   (S754_finite sy (mantissa_of q) (exponent_of q))) =
  (cond_Zopp sy (Z.pos q) <? cond_Zopp sx (Z.pos p)).
Proof.
  intros Hp Hq.
  pose proof (exponent_of_range p Hp) as Hep. pose proof (exponent_of_range q Hq) as Heq.
  unfold Num.sub, SFsub. cbv zeta.
  set (ez := Z.min (exponent_of p) (exponent_of q)).
  rewrite gt0_binary_normalize by lia.
  rewrite !shl_align_value by lia.
  rewrite (mantissa_of_value p Hp), (mantissa_of_value q Hq).
  rewrite <- !Z.mul_assoc, <- !Z.pow_add_r by lia.
  replace (- exponent_of p + (exponent_of p - ez)) with (- ez) by lia.
  replace (- exponent_of q + (exponent_of q - ez)) with (- ez) by lia.
  assert (Hpow : 0 < 2 ^ (- ez)) by (apply Z.pow_pos_nonneg; lia).
  destruct sx, sy; cbn [cond_Zopp];
    match goal with
    | |- (0 <? ?d) = (?x <? ?y) =>
        destruct (Z.ltb_spec 0 d), (Z.ltb_spec x y); try reflexivity; nia
    end.
Qed.

Lemma gt0_sub_of_Z (a b : Z) :
  Z.abs a < 2 ^ 53 -> Z.abs b < 2 ^ 53 ->
  Num.gt0 (Num.sub (Num.of_Z a) (Num.of_Z b)) = (b <? a).
Proof.
  intros Ha Hb. rewrite (of_Z_safe a Ha), (of_Z_safe b Hb).
  destruct a as [|p|p], b as [|q|q]; try reflexivity.
  - apply (gt0_sub_safe_finite false false); lia.
  - apply (gt0_sub_safe_finite false true); lia.
  - apply (gt0_sub_safe_finite true false); lia.
  - apply (gt0_sub_safe_finite true true); lia.
Qed.

Lemma is_nan_of_Z (z : Z) : Num.is_nan (Num.of_Z z) = false.
Proof.
  unfold Num.of_Z. destruct z as [|p|p]; cbn [binary_normalize]; [reflexivity| |].
  - destruct (binary_round_sign false p 0 ltac:(lia)) as [(m & e & ->)| ->]; reflexivity.
  - destruct (binary_round_sign true p 0 ltac:(lia)) as [(m & e & ->)| ->]; reflexivity.
Qed.

(** ** Sorting a column of integers *)

Lemma Sorted_impl_in {A : Type} (R R' : A -> A -> Prop) (l : list A) :
  (forall a b, In a l -> In b l -> R a b -> R' a b) -> Sorted R l -> Sorted R' l.
Proof.
  intros H Hs. rewrite <- (map_id l). apply (Sorted_map_in R R' id); [|exact Hs].
  exact H.
Qed.

Section IntegerColumn.
Context {C : Collator}.

Lemma sorts_after_numeric_asym (column direction : string) (a b : Row) :
  is_numeric_column column = true ->
  sorts_after column direction a b = true -> sorts_after column direction b a = false.
Proof.
  intros En. unfold sorts_after.
  rewrite (compareFn_numbers _ _ _ _ _ _
             (switch_value_numeric _ a En) (switch_value_numeric _ b En)
             (to_numeric_not_nan _) (to_numeric_not_nan _)).
  rewrite (compareFn_numbers _ _ _ _ _ _
             (switch_value_numeric _ b En) (switch_value_numeric _ a En)
             (to_numeric_not_nan _) (to_numeric_not_nan _)).
  destruct (String.eqb direction "asc").
  - rewrite (gt0_sub_swap (to_numeric (row_get column a))). apply gt0_not_lt0.
  - unfold Num.neg. rewrite !gt0_opp.
    rewrite <- (gt0_sub_swap (to_numeric (row_get column a)) (to_numeric (row_get column b))).
    apply gt0_not_lt0.
Qed.

Lemma sorts_after_integers (column direction : string) (a b : Row) (va vb : Z) :
  is_numeric_column column = true ->
  row_get column a = JNum (Num.of_Z va) -> Z.abs va < 2 ^ 53 ->
  row_get column b = JNum (Num.of_Z vb) -> Z.abs vb < 2 ^ 53 ->
  sorts_after column direction a b =
  if String.eqb direction "asc" then vb <? va else va <? vb.
Proof.
  intros En Ha Hva Hb Hvb. unfold sorts_after.
  rewrite (compareFn_numbers _ _ _ _ _ _
             (switch_value_numeric _ a En) (switch_value_numeric _ b En)
             (to_numeric_not_nan _) (to_numeric_not_nan _)).
  rewrite Ha, Hb. unfold to_numeric, isNaN. cbn [ToNumber]. rewrite !is_nan_of_Z.
  destruct (String.eqb direction "asc").
  - apply gt0_sub_of_Z; assumption.
  - unfold Num.neg. rewrite gt0_opp, <- gt0_sub_swap. apply gt0_sub_of_Z; assumption.
Qed.

(** Sorting by a numeric column whose values are integers below 2^53 (as
    the totals [fetchData] stores are) orders the rows by those integers:
    never decreasing for "asc", never increasing for any other
    direction. *)
Theorem sortData_integer_column (column direction : string) (rows : list Row)
    (value : Row -> Z) :
  is_numeric_column column = true ->
  (forall row, In row rows ->
     row_get column row = JNum (Num.of_Z (value row)) /\ Z.abs (value row) < 2 ^ 53) ->
  exists sorted,
    sortedRows column direction rows = Normal sorted /\
    Permutation sorted rows /\
    Sorted (fun a b => if String.eqb direction "asc" then value a <= value b
                       else value b <= value a) sorted.
Proof.
  intros En Hrows. exists (isort (sorts_after column direction) rows).
  split; [apply sortedRows_isort|]. split; [apply isort_Permutation|].
  apply (Sorted_impl_in (fun a b => sorts_after column direction a b = false)).
  - intros a b Ha Hb. apply (proj1 (isort_In _ _ _)) in Ha, Hb.
    destruct (Hrows a Ha) as [Hga Hva], (Hrows b Hb) as [Hgb Hvb].
    rewrite (sorts_after_integers column direction a b _ _ En Hga Hva Hgb Hvb).
    destruct (String.eqb direction "asc"); lia.
  - apply isort_Sorted. intros a b. apply sorts_after_numeric_asym. exact En.
Qed.
End IntegerColumn.

Lemma sortData_integer_column_witness :
  exists sorted,
    @sortedRows codeunit_collator "totalCases" "desc" sample_rows = Normal sorted /\
    map cases sorted = [5; 4; 3].
Proof.
  destruct (@sortData_integer_column codeunit_collator "totalCases" "desc" sample_rows cases
              eq_refl) as (sorted & Hrun & _ & _).
  - intros row Hrow.
    repeat (destruct Hrow as [<-|Hrow]; [split; [reflexivity|cbn; lia]|]). destruct Hrow.
  - exists sorted. split; [exact Hrun|].
    vm_compute in Hrun. injection Hrun as <-. reflexivity.
Defined.

(** ** The value clause on a column of integers *)

(** On a column whose value is an integer below 2^53 (the [cases] and
    [deaths] of a row, its totals), with bounds that read as such
    integers, the value clause keeps the row exactly when the integer lies
    between the bounds, both inclusive; an empty bound does not bound. *)
Theorem isValueValid_integer_range (entry : Row) (value label_ minValue maxValue : string)
    (n lo hi : Z) :
  value <> ""%string ->
  row_get value entry = JNum (Num.of_Z n) ->
  Z.abs n < 2 ^ 53 -> Z.abs lo < 2 ^ 53 -> Z.abs hi < 2 ^ 53 ->
  (minValue = ""%string \/ parseFloat (JStr minValue) = Num.of_Z lo) ->
  (maxValue = ""%string \/ parseFloat (JStr maxValue) = Num.of_Z hi) ->
  isValueValid entry (Some (value, label_)) minValue maxValue =
  (String.eqb minValue "" || (lo <=? n)) && (String.eqb maxValue "" || (n <=? hi)).
Proof.
  intros Hvalue Hget Hn Hlo Hhi Hmin Hmax. unfold isValueValid.
  cbn [ToBoolean]. destruct (String.eqb_spec value "") as [?|_]; [contradiction|].
  cbn [negb]. rewrite Hget. cbn [is_undefined is_null negb andb ToNumber].
  f_equal.
  - destruct Hmin as [-> | ->]; [reflexivity|]. rewrite leb_of_Z by assumption. reflexivity.
  - destruct Hmax as [-> | ->]; [reflexivity|]. rewrite leb_of_Z by assumption. reflexivity.
Qed.

Lemma isValueValid_integer_range_witness :
  let entry := sample_row "X" "05/03/2020" 15 JUndefined in
  isValueValid entry (Some ("cases", "cases")%string) "10" "20" = true /\
  isValueValid entry (Some ("cases", "cases")%string) "16" "" = false.
Proof.
  intros entry. split.
  - rewrite (isValueValid_integer_range entry "cases" "cases" "10" "20" 15 10 20);
      [reflexivity|discriminate|reflexivity|reflexivity|reflexivity|reflexivity
      |right; vm_compute; reflexivity|right; vm_compute; reflexivity].
  - rewrite (isValueValid_integer_range entry "cases" "cases" "16" "" 15 16 0);
      [reflexivity|discriminate|reflexivity|reflexivity|reflexivity|reflexivity
      |right; vm_compute; reflexivity|left; reflexivity].
Defined.

(** ** Day first and month first *)

Lemma scan_digits_numeral (s : string) (acc cnt : Z) :
  forallb Str.is_digit (list_ascii_of_string s) = true ->
  Str.scan_digits s acc cnt =
  (fold_left (fun a c => 10 * a + Str.digit_value c) (list_ascii_of_string s) acc,
   cnt + Z.of_nat (String.length s), EmptyString).
Proof.
  revert acc cnt. induction s as [|c s IH]; intros acc cnt Hs.
  - cbn. rewrite Z.add_0_r. reflexivity.
  - cbn [list_ascii_of_string forallb] in Hs. apply andb_true_iff in Hs as [Hc Hs].
    cbn [Str.scan_digits list_ascii_of_string fold_left String.length]. rewrite Hc, IH by exact Hs.
    f_equal. f_equal. lia.
Qed.

Lemma parse_numeral_numeral (s : string) :
  is_numeral s = true -> JsDate.parse_numeral s = Some (numeral_value s).
Proof.
  unfold is_numeral, JsDate.parse_numeral, numeral_value, digits_value.
  intros H. apply andb_true_iff in H as [Hne Hs].
  rewrite scan_digits_numeral by exact Hs.
  destruct s as [|c s]; [discriminate Hne|]. cbn [String.length].
  destruct (Z.ltb_spec 0 (0 + Z.of_nat (S (String.length s)))); [reflexivity|lia].
Qed.

Lemma is_digit_not_slash (c : ascii) : Str.is_digit c = true -> Ascii.eqb c "/" = false.
Proof.
  destruct c as [[] [] [] [] [] [] [] []]; vm_compute; intros H; congruence.
Qed.

Lemma split_on_digits (s rest : string) :
  forallb Str.is_digit (list_ascii_of_string s) = true ->
  JsDate.split_on "/" (s +:+ "/" +:+ rest) = s :: JsDate.split_on "/" rest.
Proof.
  induction s as [|c s IH]; intros Hs.
  - reflexivity.
  - cbn [list_ascii_of_string forallb] in Hs. apply andb_true_iff in Hs as [Hc Hs].
    change (String c s +:+ "/" +:+ rest) with (String c (s +:+ "/" +:+ rest)).
    cbn [JsDate.split_on]. rewrite (is_digit_not_slash c Hc), IH by exact Hs. reflexivity.
Qed.

Lemma split_on_last (s : string) :
  forallb Str.is_digit (list_ascii_of_string s) = true -> JsDate.split_on "/" s = [s].
Proof.
  induction s as [|c s IH]; intros Hs; [reflexivity|].
  cbn [list_ascii_of_string forallb] in Hs. apply andb_true_iff in Hs as [Hc Hs].
  cbn [JsDate.split_on]. rewrite (is_digit_not_slash c Hc), IH by exact Hs. reflexivity.
Qed.

Lemma split_on_slashed (a b c : string) :
  is_numeral a = true -> is_numeral b = true -> is_numeral c = true ->
  JsDate.split_on "/" (slashed a b c) = [a; b; c].
Proof.
  unfold is_numeral, slashed. intros Ha Hb Hc.
  apply andb_true_iff in Ha as [_ Ha], Hb as [_ Hb], Hc as [_ Hc].
  rewrite split_on_digits by exact Ha. rewrite split_on_digits by exact Hb.
  rewrite split_on_last by exact Hc. reflexivity.
Qed.

Lemma parse_slashed (a b c : string) :
  is_numeral a = true -> is_numeral b = true -> is_numeral c = true ->
  JsDate.parse (slashed a b c) =
  JsDate.compose_day (numeral_value a) (numeral_value b) (numeral_value c).
Proof.
  intros Ha Hb Hc. unfold JsDate.parse. rewrite split_on_slashed by assumption.
  cbn [map]. rewrite !parse_numeral_numeral by assumption. reflexivity.
Qed.

Lemma of_dateRep_slashed (day month year : string) :
  is_numeral day = true -> is_numeral month = true -> is_numeral year = true ->
  JsDate.of_dateRep (slashed day month year) = JsDate.parse (slashed month day year).
Proof.
  intros Hd Hm Hy. unfold JsDate.of_dateRep. rewrite split_on_slashed by assumption.
  reflexivity.
Qed.

(** For every date written as day/month/year in digits, [fetchData] reads
    the day first and the filter reads the month first: the filter takes
    the date for the one with day and month exchanged, and when the day is
    after the 12th it takes it for no date at all and drops the row,
    whatever the bounds. *)
Theorem filter_reads_day_as_month (entry : Row) (day month year : string) :
  is_numeral day = true -> is_numeral month = true -> is_numeral year = true ->
  date entry = slashed day month year ->
  JsDate.of_dateRep (date entry) =
    JsDate.compose_day (numeral_value month) (numeral_value day) (numeral_value year) /\
  JsDate.parse (date entry) = JsDate.of_dateRep (slashed month day year) /\
  (12 < numeral_value day <= 31 ->
   forall startDate endDate, isDateValid entry startDate endDate = false).
Proof.
  intros Hd Hm Hy Hdate. rewrite Hdate. split; [|split].
  - rewrite of_dateRep_slashed by assumption. apply parse_slashed; assumption.
  - rewrite of_dateRep_slashed by assumption. reflexivity.
  - intros Hday startDate endDate. apply isDateValid_unparsed.
    rewrite Hdate, parse_slashed by assumption. unfold JsDate.compose_day, JsDate.is_day, JsDate.is_month.
    destruct (Z.leb_spec 1 (numeral_value day)); [|lia].
    destruct (Z.leb_spec (numeral_value day) 31); [|lia].
    cbn [andb]. cbv zeta.
    destruct (Z.leb_spec (numeral_value day) 12); [lia|].
    rewrite andb_false_r. reflexivity.
Qed.

Lemma filter_reads_day_as_month_witness :
  let entry := sample_row "X" "25/12/2020" 1 JUndefined in
  JsDate.of_dateRep (date entry) = JsDate.compose_day 12 25 2020 /\
  isDateValid entry None None = false.
Proof.
  intros entry.
  destruct (filter_reads_day_as_month entry "25" "12" "2020" eq_refl eq_refl eq_refl eq_refl)
    as (Hfetch & _ & Hdrop).
  split; [exact Hfetch|]. apply Hdrop. vm_compute. split; [reflexivity|discriminate].
Defined.

(** ** Dates that are dates *)

Lemma compose_day_valid (day month year : Z) :
  1 <= day <= 31 -> 1 <= month <= 12 -> 100 <= year <= 9999 ->
  JsDate.compose_day month day year =
  Some (JsDate.MakeDay year (month - 1) day * JsDate.msPerDay).
Proof.
  intros Hd Hm Hy.
  assert (Eday : JsDate.is_day month = true)
    by (unfold JsDate.is_day; apply andb_true_iff; split; apply Z.leb_le; lia).
  assert (Eday' : JsDate.is_day day = true)
    by (unfold JsDate.is_day; apply andb_true_iff; split; apply Z.leb_le; lia).
  assert (Emonth : JsDate.is_month month = true)
    by (unfold JsDate.is_month; apply andb_true_iff; split; apply Z.leb_le; lia).
  assert (Ey1 : (0 <=? year) && (year <=? 49) = false)
    by (apply andb_false_iff; right; apply Z.leb_gt; lia).
  assert (Ey2 : (50 <=? year) && (year <=? 99) = false)
    by (apply andb_false_iff; right; apply Z.leb_gt; lia).
  unfold JsDate.compose_day. rewrite Eday. cbv beta iota zeta.
  rewrite Ey1, Ey2, Emonth, Eday'. cbn [andb]. unfold JsDate.TimeClip.
  destruct (Z.leb_spec (Z.abs (JsDate.MakeDay year (month - 1) day * JsDate.msPerDay))
                       8640000000000000) as [_|Hbig]; [reflexivity|exfalso].
  revert Hbig. unfold JsDate.MakeDay, JsDate.days_from_civil, JsDate.msPerDay.
  replace ((month - 1) / 12) with 0 by (symmetry; apply Z.div_small; lia).
  replace ((month - 1) mod 12) with (month - 1) by (symmetry; apply Z.mod_small; lia).
  replace (month - 1 + 1) with month by lia. rewrite Z.add_0_r.
  set (y' := if month <=? 2 then year - 1 else year).
  assert (Hy' : 99 <= y' <= 9999) by (unfold y'; destruct (month <=? 2); lia).
  set (mp := if 2 <? month then month - 3 else month + 9).
  assert (Hmp : 0 <= mp <= 11) by (unfold mp; destruct (Z.ltb_spec 2 month); lia).
  pose proof (Z.div_pos y' 400 ltac:(lia) ltac:(lia)) as He0.
  assert (He1 : y' / 400 < 25) by (apply Z.div_lt_upper_bound; lia).
  pose proof (Z.mul_div_le y' 400 ltac:(lia)) as Hq0.
  pose proof (Z.mod_pos_bound y' 400 ltac:(lia)) as Hq1.
  rewrite Z.mod_eq in Hq1 by lia.
  set (yoe := y' - y' / 400 * 400) in *.
  assert (Hyoe : 0 <= yoe <= 399) by lia.
  pose proof (Z.div_pos yoe 4 ltac:(lia) ltac:(lia)).
  assert (yoe / 4 < 100) by (apply Z.div_lt_upper_bound; lia).
  pose proof (Z.div_pos yoe 100 ltac:(lia) ltac:(lia)).
  assert (yoe / 100 < 4) by (apply Z.div_lt_upper_bound; lia).
  pose proof (Z.div_pos (153 * mp + 2) 5 ltac:(lia) ltac:(lia)).
  assert ((153 * mp + 2) / 5 < 338) by (apply Z.div_lt_upper_bound; lia).
  lia.
Qed.

(** A feed that is not empty and whose dates are all written
    day/month/year in digits, with a day from 1 to 31, a month from 1 to 12
    and a year of three or four digits, gets two valid bounds, the first
    not after the second. *)
Theorem minDate_maxDate_valid (records : list Raw.t) :
  records <> [] ->
  Forall (fun r => exists day month year,
            Raw.dateRep r = slashed day month year /\
            is_numeral day = true /\ is_numeral month = true /\ is_numeral year = true /\
            1 <= numeral_value day <= 31 /\ 1 <= numeral_value month <= 12 /\
            100 <= numeral_value year <= 9999) records ->
  exists lo hi, minDate records = Some lo /\ maxDate records = Some hi /\ lo <= hi.
Proof.
  intros Hne Hall.
  assert (Hsome : Forall (fun r => exists t, JsDate.of_dateRep (Raw.dateRep r) = Some t) records).
  { eapply Forall_impl; [exact Hall|]. intros r (d & m & y & -> & Hd & Hm & Hy & Hdr & Hmr & Hyr).
    rewrite of_dateRep_slashed, parse_slashed by assumption.
    rewrite compose_day_valid by assumption. eauto. }
  pose proof (Date_of_extremum_spec Z.min Z.le Z.le_min_l Z.le_min_r
                ltac:(intros a b; lia) Z.le_trans records) as Hmin.
  pose proof (Date_of_extremum_spec Z.max Z.ge ltac:(intros a b; lia) ltac:(intros a b; lia)
                ltac:(intros a b; lia) ltac:(intros a b c; lia) records) as Hmax.
  assert (Hno : ~ Exists (fun r => JsDate.of_dateRep (Raw.dateRep r) = None) records).
  { intros Hex. apply Exists_exists in Hex as (r & Hr & Hnone).
    rewrite Forall_forall in Hsome. destruct (Hsome r Hr) as (t & Ht). congruence. }
  unfold minDate, maxDate.
  destruct (Date_of_extremum Z.min (dates records)) as [lo|];
    [|destruct Hmin as [?|?]; contradiction].
  destruct (Date_of_extremum Z.max (dates records)) as [hi|];
    [|destruct Hmax as [?|?]; contradiction].
  exists lo, hi. split; [reflexivity|]. split; [reflexivity|].
  destruct Hmin as (_ & Hlo & _), Hmax as (_ & Hhi & _).
  destruct records as [|r records]; [contradiction|].
  apply Forall_cons in Hlo as [(t & Ht & Hle) _], Hhi as [(t' & Ht' & Hge) _].
  rewrite Ht in Ht'. injection Ht' as <-. lia.
Qed.

Lemma minDate_maxDate_valid_witness :
  let records := [sample_record "X" "25/12/2020" 1 0 None;
                  sample_record "X" "05/03/2020" 2 0 None] in
  exists lo hi, minDate records = Some lo /\ maxDate records = Some hi /\ lo <= hi.
Proof.
  intros records. apply minDate_maxDate_valid; [discriminate|].
  repeat constructor.
  - exists "25"%string, "12"%string, "2020"%string. vm_compute. intuition discriminate.
  - exists "05"%string, "03"%string, "2020"%string. vm_compute. intuition discriminate.
Defined.

(** ** From the rows to the table *)

(** For every state of the filter and of the sort, and a positive
    [itemsPerPage]: paging through the table from page 1 to [totalPages]
    shows the sorted rows in order, and these are the rows of [allData]
    that pass the filter, each as often as it passes, and no other row. *)
Theorem table_shows_filtered_rows {C : Collator}
    (allData : list Row) (f : Filters.t) (st : SortState.t) (itemsPerPage : Z) :
  0 < itemsPerPage ->
  let filtered := filteredData allData f in
  exists (sortedFilteredData : list Row) (n : Z),
    sortedRows (column_key (SortState.sortedColumn st)) (SortState.sortDirection st) filtered
      = Normal sortedFilteredData /\
    totalPages filtered itemsPerPage = Num.of_Z n /\
    concat (map (fun page => pageRows sortedFilteredData page itemsPerPage) (seqZ 1 n))
      = sortedFilteredData /\
    Permutation sortedFilteredData filtered /\
    (forall row, In row sortedFilteredData -> In row allData).
Proof.
  intros Hk filtered.
  set (column := column_key (SortState.sortedColumn st)).
  set (direction := SortState.sortDirection st).
  destruct (totalPages_ceiling filtered itemsPerPage Hk) as (n & Hn & Hlen).
  exists (isort (sorts_after column direction) filtered), n.
  split; [apply sortedRows_isort|]. split; [exact Hn|].
  pose proof (isort_Permutation (sorts_after column direction) filtered) as Hperm.
  split; [|split; [exact Hperm|]].
  - rewrite <- (Z2Nat.id n) by nia. rewrite concat_pages by exact Hk.
    apply take_ge. rewrite (Permutation_length Hperm). nia.
  - intros row Hrow. apply (proj1 (isort_In _ _ _)) in Hrow.
    unfold filtered, filteredData in Hrow. apply filter_In in Hrow. apply Hrow.
Qed.

Lemma table_shows_filtered_rows_witness :
  exists (sortedFilteredData : list Row) (n : Z),
    @sortedRows codeunit_collator "country" "asc" (filteredData sample_rows Filters.initial)
      = Normal sortedFilteredData /\
    totalPages (filteredData sample_rows Filters.initial) 2 = Num.of_Z n /\
    concat (map (fun page => pageRows sortedFilteredData page 2) (seqZ 1 n))
      = sortedFilteredData.
Proof.
  destruct (@table_shows_filtered_rows codeunit_collator sample_rows Filters.initial
              (handleColumnSort SortState.initial "country") 2 ltac:(lia))
    as (sorted & n & Hrun & Hn & Hcat & _).
  exists sorted, n. split; [exact Hrun|]. split; [exact Hn|exact Hcat].
Defined.
